(** * Unified realtime audio session layer: a shallow embedding

    The development follows the TypeScript sources of the voice console:

    - [lib/gemini-client.ts]: [GeminiClient] and [OpenAIRealtimeClient]
      (the two protocol adapters and their base64 helpers);
    - [lib/audio-utils.ts]: [AudioStreamer] (the playback queue);
    - [App.tsx]: the client listeners that feed the playback queue, and
      [startRecording] / [stopRecording] (the time-windowed batching path);
    - [lib/unified-live-client.ts]: [UnifiedLiveClient] (session state machine
      and provider switch);
    - [hooks/use-live-api.ts]: the [connect] and [disconnect] of the hook.

    Conventions.  An [ArrayBuffer] / [Uint8Array] is a [list byte].  A
    JavaScript "binary string" (every code unit below 256) is a [string] of
    the Standard Library, whose characters are exactly the 256 code units
    [btoa] accepts.  Every call that leaves the object (network, peer
    connection, emitted event) is appended to an effect trace, so that
    "nothing was sent" is the statement that the trace is empty.
    [console.*] diagnostics are not part of the trace. *)

From Stdlib Require Import List String Ascii NArith ZArith QArith Lia Bool Arith.
From Stdlib.Strings Require Import Byte.
Import ListNotations.

Local Open Scope string_scope.

(* ================================================================== *)
(** * Base64: [btoa], [atob] and the two buffer helpers                *)
(* ================================================================== *)

Module Base64.

Local Open Scope N_scope.

(** The 64-character alphabet of RFC 4648, table 1. *)
Definition alphabet : string :=
  "ABCDEFGHIJKLMNOPQRSTUVWXYZabcdefghijklmnopqrstuvwxyz0123456789+/".

Definition pad_char : ascii := "="%char.

(** Character of a 6-bit value. *)
Definition b64_char (n : N) : ascii :=
  match String.get (N.to_nat n) alphabet with
  | Some c => c
  | None => pad_char
  end.

(** 6-bit value of an alphabet character; [None] outside the alphabet. *)
Definition b64_value (c : ascii) : option N :=
  let n := N_of_ascii c in
  if (65 <=? n) && (n <=? 90) then Some (n - 65)
  else if (97 <=? n) && (n <=? 122) then Some (n - 71)
  else if (48 <=? n) && (n <=? 57) then Some (n + 4)
  else if n =? 43 then Some 62
  else if n =? 47 then Some 63
  else None.

(** The 24-bit group of three octets, and its four 6-bit digits. *)
Definition group24 (a b c : ascii) : N :=
  N_of_ascii a * 65536 + N_of_ascii b * 256 + N_of_ascii c.

Definition digit0 (n : N) : N := n / 262144.
Definition digit1 (n : N) : N := (n / 4096) mod 64.
Definition digit2 (n : N) : N := (n / 64) mod 64.
Definition digit3 (n : N) : N := n mod 64.

(** The unpadded 6-bit digits produced for a binary string: four per full
    group, three for a tail of two octets, two for a tail of one. *)
Fixpoint sextets (l : list ascii) : list N :=
  match l with
  | a :: b :: c :: rest =>
      let n := group24 a b c in
      digit0 n :: digit1 n :: digit2 n :: digit3 n :: sextets rest
  | [a; b] =>
      let n := group24 a b zero in [digit0 n; digit1 n; digit2 n]
  | [a] =>
      let n := group24 a zero zero in [digit0 n; digit1 n]
  | [] => []
  end.

(** [btoa] on the characters of a binary string: every full group of three
    octets gives four characters, a tail of two gives three characters and
    one pad, a tail of one gives two characters and two pads. *)
Fixpoint btoa_chars (l : list ascii) : list ascii :=
  match l with
  | a :: b :: c :: rest =>
      let n := group24 a b c in
      b64_char (digit0 n) :: b64_char (digit1 n) ::
      b64_char (digit2 n) :: b64_char (digit3 n) :: btoa_chars rest
  | [a; b] =>
      let n := group24 a b zero in
      [b64_char (digit0 n); b64_char (digit1 n); b64_char (digit2 n); pad_char]
  | [a] =>
      let n := group24 a zero zero in
      [b64_char (digit0 n); b64_char (digit1 n); pad_char; pad_char]
  | [] => []
  end.

(** The pads [btoa] appends after the digits. *)
Fixpoint padding (l : list ascii) : list ascii :=
  match l with
  | _ :: _ :: _ :: rest => padding rest
  | [_; _] => [pad_char]
  | [_] => [pad_char; pad_char]
  | [] => []
  end.

Definition btoa (binary : string) : string :=
  string_of_list_ascii (btoa_chars (list_ascii_of_string binary)).

(** ASCII whitespace: TAB, LF, FF, CR, SPACE. *)
Definition is_ascii_whitespace (c : ascii) : bool :=
  let n := N_of_ascii c in
  (n =? 9) || (n =? 10) || (n =? 12) || (n =? 13) || (n =? 32).

(** When the length is a multiple of four, one or two trailing pads are
    removed. *)
Definition strip_padding (l : list ascii) : list ascii :=
  if (List.length l mod 4 =? 0)%nat then
    match rev l with
    | p :: q :: r =>
        if Ascii.eqb p pad_char then
          if Ascii.eqb q pad_char then rev r else rev (q :: r)
        else l
    | [p] => if Ascii.eqb p pad_char then [] else l
    | [] => l
    end
  else l.

Fixpoint values_of (l : list ascii) : option (list N) :=
  match l with
  | [] => Some []
  | c :: rest =>
      match b64_value c, values_of rest with
      | Some v, Some vs => Some (v :: vs)
      | _, _ => None
      end
  end.

(** Octets of a digit sequence: 24 bits give three octets; a tail of 18
    bits drops its last two bits and gives two; a tail of 12 bits drops its
    last four bits and gives one. *)
Fixpoint octets (l : list N) : list ascii :=
  match l with
  | s0 :: s1 :: s2 :: s3 :: rest =>
      let m := s0 * 262144 + s1 * 4096 + s2 * 64 + s3 in
      ascii_of_N (m / 65536) :: ascii_of_N ((m / 256) mod 256) ::
      ascii_of_N (m mod 256) :: octets rest
  | [s0; s1; s2] =>
      let m := (s0 * 4096 + s1 * 64 + s2) / 4 in
      [ascii_of_N (m / 256); ascii_of_N (m mod 256)]
  | [s0; s1] =>
      let m := (s0 * 64 + s1) / 16 in [ascii_of_N m]
  | _ => []
  end.

(** [atob]: the forgiving base64 decoder.  [None] is the
    [InvalidCharacterError] exception. *)
Definition atob_chars (l : list ascii) : option (list ascii) :=
  let data := strip_padding (filter (fun c => negb (is_ascii_whitespace c)) l) in
  if (List.length data mod 4 =? 1)%nat then None
  else match values_of data with
       | Some vs => Some (octets vs)
       | None => None
       end.

Definition atob (base64 : string) : option string :=
  match atob_chars (list_ascii_of_string base64) with
  | Some l => Some (string_of_list_ascii l)
  | None => None
  end.

(** [String.fromCharCode(bytes[i])] appended for every index. *)
Fixpoint binary_of_bytes (bytes : list byte) : string :=
  match bytes with
  | [] => EmptyString
  | x :: rest => String (ascii_of_byte x) (binary_of_bytes rest)
  end.

(** [bytes[i] = binaryString.charCodeAt(i)] for every index. *)
Fixpoint bytes_of_binary (binary : string) : list byte :=
  match binary with
  | EmptyString => []
  | String c rest => byte_of_ascii c :: bytes_of_binary rest
  end.

Definition arrayBufferToBase64 (buffer : list byte) : string :=
  btoa (binary_of_bytes buffer).

Definition base64ToArrayBuffer (base64 : string) : option (list byte) :=
  match atob base64 with
  | Some binaryString => Some (bytes_of_binary binaryString)
  | None => None
  end.

End Base64.

(* ================================================================== *)
(** * Shared vocabulary: status, events, messages, effect trace       *)
(* ================================================================== *)

Local Open Scope list_scope.

(** ["connected" | "disconnected" | "connecting"] *)
Inductive Status : Type := disconnected | connecting | connected.

(** [ConnectionType = 'webrtc' | 'websocket'] *)
Inductive ConnectionType : Type := webrtc | websocket.

(** [Provider = 'gemini' | 'openai'] *)
Inductive Provider : Type := gemini | openai.

(** [readyState] of a [WebSocket] or of an [RTCDataChannel]. *)
Inductive ReadyState : Type := CONNECTING | OPEN | CLOSING | CLOSED.

Definition Status_eqb (a b : Status) : bool :=
  match a, b with
  | disconnected, disconnected | connecting, connecting
  | connected, connected => true
  | _, _ => false
  end.

Definition Provider_eqb (a b : Provider) : bool :=
  match a, b with
  | gemini, gemini | openai, openai => true
  | _, _ => false
  end.

Definition ReadyState_eqb (a b : ReadyState) : bool :=
  match a, b with
  | CONNECTING, CONNECTING | OPEN, OPEN | CLOSING, CLOSING
  | CLOSED, CLOSED => true
  | _, _ => false
  end.

(** Outbound payloads are object literals handed to [JSON.stringify]; the
    wire carries their serialisation, which is kept here as the value
    itself. *)
Unset Elimination Schemes.
Inductive json : Type :=
| JNull
| JBool (b : bool)
| JNum (n : Z)
| JStr (s : string)
| JArr (items : list json)
| JObj (fields : list (string * json)).
Set Elimination Schemes.

(** The connect configuration ([config: any]): the two fields the adapters
    read. *)
Record Config : Type := mkConfig {
  voice : option string;
  instructions : option string
}.

(** [v || d] on an optional string: [undefined] and the empty string are falsy. *)
Definition or_default (v : option string) (d : string) : string :=
  match v with
  | Some s => if String.eqb s EmptyString then d else s
  | None => d
  end.

(** [a || b] where both sides are optional strings. *)
Definition or_else (a b : option string) : option string :=
  match a with
  | Some s => if String.eqb s EmptyString then b else Some s
  | None => b
  end.

(** A media chunk given to [session.sendRealtimeInput]: a [Blob] or an
    inline [{ mimeType, data }] object. *)
Inductive Media : Type :=
| MediaBlob (bytes : list byte) (type : string)
| MediaInline (mimeType : string) (data : string).

(** Texts of the [log] event of [GeminiClient]; the interpolated values are
    kept as arguments. *)
Inductive LogMessage : Type :=
| LogAlreadyConnected
| LogConnecting (model : string)
| LogConnected
| LogDisconnectedReason (reason : string)
| LogSessionCreated
| LogConnectionFailed (message : string)
| LogNoActiveSession
| LogSendFailed (message : string)
| LogSentChunks (sent : nat)
| LogSentTurnComplete
| LogTurnCompleteFailed (message : string)
| LogDisconnected.

(** Payload of a [content] event of the OpenAI adapter:
    [{ type: "text", text }]. *)
Record Content : Type := mkContent { content_text : option string }.

(** Events on the emitter surface. *)
Inductive Event : Type :=
| EvOpen
| EvClose
| EvAudio (data : list byte)
| EvContent (payload : Content)
| EvError (message : string)
| EvInterrupted
| EvTurnComplete
| EvSetupComplete
| EvLog (message : LogMessage)
| EvProviderChanged (provider : Provider).

(** Lines written by [addLog] in the application. *)
Inductive AppLog : Type :=
| AppStartingRecording
| AppSentChunks (n : nat)
| AppRecordingStarted
| AppRecordingError
| AppSentFinalChunks (n : nat)
| AppSentTurnComplete
| AppRecordingStopped
| AppReceivedAudio (byteLength : nat).

(** A [Float32Array]: every element is [sample / 32768.0] for a 16-bit
    integer [sample], which is exact in binary32 and kept as a rational. *)
Definition Float32Array : Type := list Q.

(** Everything an operation does outside its own object, in program
    order. *)
Inductive Effect : Type :=
| Emit (e : Event)
| FetchClientSecrets (bearer : string) (body : json)
| FetchCall (url : string) (bearer : string) (sdp : string)
| NewPeerConnection
| CreateAudioElement
| GetUserMedia
| AddTrack
| CreateDataChannel (label : string)
| CreateOffer
| SetLocalDescription
| SetRemoteDescription (sdp : string)
| PcClose
| DcClose
| DcSend (jsonData : json)
| NewWebSocket (url : string)
| WsSend (jsonData : json)
| WsClose
| AudioPause
| LiveConnect (model : string)
| SessionClose
| SessionSendRealtimeInput (media : Media)
| SessionSendClientContent (turns : list json) (turnComplete : bool)
| ClearInterval (id : nat)
| RecorderStart
| RecorderStop
| AddLog (line : AppLog)
| SourceStart (buffer : Float32Array) (sampleRate : Z).

Definition Trace : Type := list Effect.

(** The events emitted along a trace. *)
Fixpoint emitted (t : Trace) : list Event :=
  match t with
  | [] => []
  | Emit e :: rest => e :: emitted rest
  | _ :: rest => emitted rest
  end.

Definition is_error (e : Event) : bool :=
  match e with EvError _ => true | _ => false end.

(** Requests that reach the network or open a transport. *)
Definition is_network (e : Effect) : bool :=
  match e with
  | FetchClientSecrets _ _ | FetchCall _ _ _ | NewPeerConnection
  | NewWebSocket _ | LiveConnect _ | DcSend _ | WsSend _
  | SessionSendRealtimeInput _ | SessionSendClientContent _ _ => true
  | _ => false
  end.

(** Calls on the Gemini live session. *)
Definition is_session_call (e : Effect) : bool :=
  match e with
  | SessionSendRealtimeInput _ | SessionSendClientContent _ _ => true
  | _ => false
  end.

(** Releases of a transport resource. *)
Definition is_teardown (e : Effect) : bool :=
  match e with
  | PcClose | DcClose | WsClose | AudioPause | SessionClose => true
  | _ => false
  end.

(* ================================================================== *)
(** * A state monad with exceptions and an effect trace               *)
(* ================================================================== *)

(** A method body: from the object's fields to a result ([None] when an
    exception escapes), the new fields and the effects performed. *)
Definition M (S A : Type) : Type := S -> option A * S * Trace.

Definition ret {S A} (a : A) : M S A := fun s => (Some a, s, []).

Definition bind {S A B} (m : M S A) (k : A -> M S B) : M S B :=
  fun s =>
    match m s with
    | (Some a, s1, t1) =>
        match k a s1 with (r, s2, t2) => (r, s2, t1 ++ t2) end
    | (None, s1, t1) => (None, s1, t1)
    end.

Definition throw {S A} : M S A := fun s => (None, s, []).

Definition perform {S} (e : Effect) : M S unit := fun s => (Some tt, s, [e]).

Definition modify {S} (f : S -> S) : M S unit := fun s => (Some tt, f s, []).

Definition get {S} : M S S := fun s => (Some s, s, []).

(** [try { m } catch { h }] *)
Definition try_catch {S A} (m : M S A) (h : M S A) : M S A :=
  fun s =>
    match m s with
    | (None, s1, t1) =>
        match h s1 with (r, s2, t2) => (r, s2, t1 ++ t2) end
    | ok => ok
    end.

(** A step that raises when the environment says it failed. *)
Definition guard {S} (ok : bool) : M S unit := if ok then ret tt else throw.

Declare Scope method_scope.
Delimit Scope method_scope with method.
Notation "x <- m ;; k" := (bind m (fun x => k))
  (at level 61, m at next level, right associativity) : method_scope.
Notation "m ;; k" := (bind m (fun _ => k))
  (at level 61, right associativity) : method_scope.

Local Open Scope method_scope.

(* ================================================================== *)
(** * [GeminiClient] (lib/gemini-client.ts)                            *)
(* ================================================================== *)

Module GeminiClient.

(** The SDK's live [Session].  Its two fields are the environment's answer
    to the two calls made on it: [Some message] when the call throws
    [Error(message)]. *)
Record Session : Type := mkSession {
  realtime_input_error : Media -> option string;
  client_content_error : option string
}.

Record t : Type := mk {
  session : option Session;
  _status : Status
}.

Definition set_session (v : option Session) (c : t) : t := mk v (_status c).
Definition set_status (v : Status) (c : t) : t := mk (session c) v.

(** How [client.live.connect] ends: resolved with a session (and whether
    the [onopen] callback ran before the promise resolved), or rejected. *)
Inductive LiveOutcome : Type :=
| LiveResolved (s : Session) (opened : bool)
| LiveRejected (message : string).

Definition onopen : M t unit :=
  modify (set_status connected);;
  perform (Emit (EvLog LogConnected));;
  perform (Emit EvOpen).

Definition onclose (reason : string) : M t unit :=
  modify (set_status disconnected);;
  perform (Emit (EvLog (LogDisconnectedReason (or_default (Some reason) "Unknown reason"))));;
  perform (Emit EvClose).

Definition connect (env : LiveOutcome) (model : string) (config : Config)
  : M t bool :=
  c <- get;;
  match _status c with
  | connected | connecting =>
      perform (Emit (EvLog LogAlreadyConnected));;
      ret false
  | disconnected =>
      modify (set_status connecting);;
      perform (Emit (EvLog (LogConnecting model)));;
      try_catch
        (perform (LiveConnect model);;
         s <- match env with
              | LiveResolved s opened =>
                  (if opened then onopen else ret tt);; ret s
              | LiveRejected _ => throw
              end;;
         modify (set_session (Some s));;
         perform (Emit (EvLog LogSessionCreated));;
         ret true)
        (let message := match env with
                        | LiveRejected m => m
                        | LiveResolved _ _ => EmptyString
                        end in
         perform (Emit (EvLog (LogConnectionFailed message)));;
         perform (Emit (EvError message));;
         modify (set_status disconnected);;
         ret false)
  end.

(** The loop of [sendRealtimeInput]: every chunk is handed to the session;
    a chunk whose send throws is reported and skipped.  The result is the
    number of chunks sent. *)
Fixpoint send_chunks (s : Session) (chunks : list Media) (sent : nat)
  : M t nat :=
  match chunks with
  | [] => ret sent
  | chunk :: rest =>
      sent' <- try_catch
                 (perform (SessionSendRealtimeInput chunk);;
                  match realtime_input_error s chunk with
                  | Some _ => throw
                  | None => ret (S sent)
                  end)
                 (let message := match realtime_input_error s chunk with
                                 | Some m => m
                                 | None => EmptyString
                                 end in
                  perform (Emit (EvLog (LogSendFailed message)));;
                  perform (Emit (EvError message));;
                  ret sent);;
      send_chunks s rest sent'
  end.

Definition sendRealtimeInput (chunks : list Media) : M t unit :=
  c <- get;;
  match session c with
  | None => perform (Emit (EvLog LogNoActiveSession))
  | Some s =>
      sent <- send_chunks s chunks 0;;
      if (0 <? sent)%nat then perform (Emit (EvLog (LogSentChunks sent)))
      else ret tt
  end.

(** Signal end of user turn (useful after streaming audio input stops). *)
Definition endTurn : M t unit :=
  c <- get;;
  match session c with
  | None => perform (Emit (EvLog LogNoActiveSession))
  | Some s =>
      try_catch
        (perform (SessionSendClientContent [] true);;
         match client_content_error s with
         | Some _ => throw
         | None => perform (Emit (EvLog LogSentTurnComplete))
         end)
        (let message := match client_content_error s with
                        | Some m => m
                        | None => EmptyString
                        end in
         perform (Emit (EvLog (LogTurnCompleteFailed message)));;
         perform (Emit (EvError message)))
  end.

Definition disconnect : M t bool :=
  c <- get;;
  match session c with
  | Some _ =>
      perform SessionClose;;
      modify (set_session None);;
      modify (set_status disconnected);;
      perform (Emit (EvLog LogDisconnected));;
      ret true
  | None => ret false
  end.

End GeminiClient.

(* ================================================================== *)
(** * [OpenAIRealtimeClient] (lib/gemini-client.ts, second class)      *)
(* ================================================================== *)

Module OpenAIRealtimeClient.

(** A live browser object held by reference ([RTCPeerConnection],
    [HTMLAudioElement]). *)
Inductive Handle : Type := handle.

Record t : Type := mk {
  ws : option ReadyState;           (* the WebSocket, by its readyState *)
  pc : option Handle;
  dc : option ReadyState;           (* the data channel, by its readyState *)
  audioElement : option Handle;
  apiKey : string;
  connectionType : ConnectionType;
  _status : Status;
  initialConfig : option Config
}.

Definition set_ws v c :=
  mk v (pc c) (dc c) (audioElement c) (apiKey c) (connectionType c)
     (_status c) (initialConfig c).
Definition set_pc v c :=
  mk (ws c) v (dc c) (audioElement c) (apiKey c) (connectionType c)
     (_status c) (initialConfig c).
Definition set_dc v c :=
  mk (ws c) (pc c) v (audioElement c) (apiKey c) (connectionType c)
     (_status c) (initialConfig c).
Definition set_audioElement v c :=
  mk (ws c) (pc c) (dc c) v (apiKey c) (connectionType c)
     (_status c) (initialConfig c).
Definition set_status v c :=
  mk (ws c) (pc c) (dc c) (audioElement c) (apiKey c) (connectionType c)
     v (initialConfig c).
Definition set_initialConfig v c :=
  mk (ws c) (pc c) (dc c) (audioElement c) (apiKey c) (connectionType c)
     (_status c) v.

(** [constructor(apiKey, connectionType = 'webrtc')] *)
Definition new (apiKey : string) (connectionType : ConnectionType) : t :=
  mk None None None None apiKey connectionType disconnected None.

(** ** Outbound messages *)

Definition default_instructions_long : string :=
  "You are a helpful assistant. Respond in the same language as the user.".

Definition default_instructions : string := "You are a helpful assistant.".

Definition session_update_socket (model : string) (config : Config) : json :=
  JObj [("type", JStr "session.update");
        ("session", JObj [
           ("type", JStr "realtime");
           ("model", JStr model);
           ("output_modalities", JArr [JStr "audio"; JStr "text"]);
           ("audio", JObj [
              ("input", JObj [
                 ("format", JStr "pcm16");
                 ("turn_detection", JObj [("type", JStr "semantic_vad");
                                          ("create_response", JBool true)])]);
              ("output", JObj [
                 ("format", JStr "pcm16");
                 ("voice", JStr (or_default (voice config) "marin"));
                 ("speed", JNum 1)])]);
           ("instructions",
            JStr (or_default (instructions config) default_instructions_long))])].

Definition session_update_channel (config : Config) : json :=
  JObj [("type", JStr "session.update");
        ("session", JObj [
           ("type", JStr "realtime");
           ("audio", JObj [
              ("output", JObj [
                 ("voice", JStr (or_default (voice config) "marin"))])]);
           ("instructions",
            JStr (or_default (instructions config) default_instructions))])].

Definition client_secrets_body (model : string) (config : Config) : json :=
  JObj [("session", JObj [
           ("type", JStr "realtime");
           ("model", JStr model);
           ("audio", JObj [
              ("output", JObj [
                 ("voice", JStr (or_default (voice config) "marin"))])]);
           ("instructions",
            JStr (or_default (instructions config) default_instructions_long))])].

Definition audio_append (audio : string) : json :=
  JObj [("type", JStr "input_audio_buffer.append"); ("audio", JStr audio)].

Definition conversation_item_create (text : string) : json :=
  JObj [("type", JStr "conversation.item.create");
        ("item", JObj [
           ("type", JStr "message");
           ("role", JStr "user");
           ("content", JArr [JObj [("type", JStr "input_text");
                                   ("text", JStr text)]])])].

Definition response_create : json := JObj [("type", JStr "response.create")].

(** The [type] tag of an outbound message. *)
Definition tag_of (j : json) : option string :=
  match j with
  | JObj (("type", JStr tag) :: _) => Some tag
  | _ => None
  end.

(** ** [send] *)

Definition is_open (r : option ReadyState) : bool :=
  match r with Some OPEN => true | _ => false end.

Definition send (data : json) : M t unit :=
  c <- get;;
  match connectionType c with
  | webrtc => if is_open (dc c) then perform (DcSend data) else ret tt
  | websocket => if is_open (ws c) then perform (WsSend data) else ret tt
  end.

(** ** Connection establishment *)

(** The answer of the call endpoint. *)
Inductive Signalling : Type :=
| SigNetworkError                       (* [fetch] rejects *)
| SigRejected (statusText : string)     (* [!sdpResponse.ok] *)
| SigAnswer (sdp : option string).      (* body read, or reading it fails *)

(** What the browser and the backend answer to each step of the WebRTC
    handshake. *)
Record RtcEnv : Type := mkRtcEnv {
  credential : option string;       (* key issued by [client_secrets] *)
  peer_connection_ok : bool;        (* [new RTCPeerConnection()] *)
  microphone : option nat;          (* tracks of the granted stream *)
  data_channel_ok : bool;           (* [createDataChannel] *)
  offer : option string;            (* [createOffer]: the local SDP *)
  local_description_ok : bool;      (* [setLocalDescription] *)
  signalling : Signalling;
  remote_description_ok : bool      (* [setRemoteDescription] *)
}.

(** What happens to the socket opened by [connectWebSocket]. *)
Inductive SocketOutcome : Type :=
| SocketOpened
| SocketErrored
| SocketTimedOut.

Record ConnectEnv : Type := mkConnectEnv {
  rtc : RtcEnv;
  socket : SocketOutcome
}.

Definition getEphemeralKey (env : RtcEnv) (model : string) (config : Config)
  : M t string :=
  try_catch
    (c <- get;;
     perform (FetchClientSecrets (apiKey c) (client_secrets_body model config));;
     match credential env with
     | Some value => ret value
     | None => throw
     end)
    (* Fallback to using the API key directly (for testing only) *)
    (c <- get;; ret (apiKey c)).

Fixpoint add_tracks (n : nat) : M t unit :=
  match n with
  | O => ret tt
  | S k => perform AddTrack;; add_tracks k
  end.

(** The inner [try { getUserMedia ... addTrack } catch { console.error }]
    of [connectWebRTC]. *)
Definition attach_microphone (env : RtcEnv) : M t unit :=
  try_catch
    (perform GetUserMedia;;
     match microphone env with
     | Some tracks => add_tracks tracks
     | None => throw
     end)
    (ret tt).

(** A step of the handshake after credential issuance raises: creating the
    peer connection or the data channel, creating or applying the offer, the
    signalling exchange, or applying the answer. *)
Definition handshake_fails (env : RtcEnv) : bool :=
  negb (peer_connection_ok env)
  || negb (data_channel_ok env)
  || match offer env with Some _ => false | None => true end
  || negb (local_description_ok env)
  || match signalling env with SigAnswer (Some _) => false | _ => true end
  || negb (remote_description_ok env).

Definition calls_url (model : string) : string :=
  String.append "https://api.openai.com/v1/realtime/calls?model=" model.

Definition connectWebRTC (env : RtcEnv) (model : string) (config : Config)
  : M t bool :=
  try_catch
    (ephemeralKey <- getEphemeralKey env model config;;
     modify (set_initialConfig (Some config));;
     (* Create peer connection *)
     perform NewPeerConnection;;
     guard (peer_connection_ok env);;
     modify (set_pc (Some handle));;
     (* Set up audio playback *)
     perform CreateAudioElement;;
     modify (set_audioElement (Some handle));;
     (* Add local audio track for microphone *)
     attach_microphone env;;
     (* Set up data channel for events *)
     perform (CreateDataChannel "oai-events");;
     guard (data_channel_ok env);;
     modify (set_dc (Some CONNECTING));;
     (* Create and send offer *)
     perform CreateOffer;;
     sdp <- match offer env with
            | Some sdp => ret sdp
            | None => throw
            end;;
     perform SetLocalDescription;;
     guard (local_description_ok env);;
     perform (FetchCall (calls_url model) ephemeralKey sdp);;
     answer <- match signalling env with
               | SigAnswer (Some sdp) => ret sdp
               | SigAnswer None => throw
               | SigRejected _ => throw
               | SigNetworkError => throw
               end;;
     perform (SetRemoteDescription answer);;
     guard (remote_description_ok env);;
     modify (set_status connected);;
     perform (Emit EvOpen);;
     ret true)
    throw.

Definition socket_url (model : string) : string :=
  String.append "wss://api.openai.com/v1/realtime?model=" model.

Definition connectWebSocket (env : SocketOutcome) (model : string)
  (config : Config) : M t bool :=
  perform (NewWebSocket (socket_url model));;
  modify (set_ws (Some CONNECTING));;
  match env with
  | SocketOpened =>
      modify (set_ws (Some OPEN));;
      modify (set_status connected);;
      perform (Emit EvOpen);;
      send (session_update_socket model config);;
      ret true
  | SocketErrored =>
      (* the socket is [CLOSED] when [error] fires, and [close] follows:
         [ws.onerror] emits and rejects, [ws.onclose] writes the status and
         emits.  The [catch] of [connect] writes the same status and has no
         other effect, so where it runs between the two does not show. *)
      modify (set_ws (Some CLOSED));;
      perform (Emit (EvError "WebSocket error"));;
      modify (set_status disconnected);;
      perform (Emit EvClose);;
      throw
  | SocketTimedOut => throw
  end.

Definition connect (env : ConnectEnv) (model : string) (config : Config)
  : M t bool :=
  c <- get;;
  match _status c with
  | connected | connecting => ret false
  | disconnected =>
      modify (set_status connecting);;
      try_catch
        (match connectionType c with
         | webrtc => connectWebRTC (rtc env) model config
         | websocket => connectWebSocket (socket env) model config
         end)
        (modify (set_status disconnected);; ret false)
  end.

(** [dc.onopen], run once the environment has opened the channel. *)
Definition dc_onopen : M t unit :=
  modify (set_dc (Some OPEN));;
  c <- get;;
  match initialConfig c with
  | Some config =>
      send (session_update_channel config);;
      modify (set_initialConfig None)
  | None => ret tt
  end.

(** [dc.onerror] *)
Definition dc_onerror : M t unit :=
  perform (Emit (EvError "Data channel error")).

(** [ws.onclose] *)
Definition ws_onclose : M t unit :=
  modify (set_status disconnected);;
  perform (Emit EvClose).

(** ** Inbound messages *)

(** [message.error] *)
Record ErrorBody : Type := mkErrorBody { message : option string }.

(** A parsed inbound message ([message: any]), by the fields
    [handleMessage] reads; every field it reads is a string when present. *)
Record ServerMessage : Type := mkServerMessage {
  msg_type : option string;
  msg_delta : option string;
  msg_text : option string;
  msg_error : option ErrorBody
}.

Definition truthy (v : option string) : bool :=
  match v with
  | Some s => negb (String.eqb s EmptyString)
  | None => false
  end.

Definition error_message (e : option ErrorBody) : string :=
  match e with
  | Some body => or_default (message body) "Unknown error"
  | None => "Unknown error"
  end.

Definition handleMessage (m : ServerMessage) : M t unit :=
  match msg_type m with
  | None => ret tt
  | Some tag =>
      if String.eqb tag "session.created" || String.eqb tag "session.updated"
      then ret tt
      else if String.eqb tag "response.audio.delta" then
        c <- get;;
        match msg_delta m, connectionType c with
        | Some delta, websocket =>
            if truthy (Some delta) then
              match Base64.base64ToArrayBuffer delta with
              | Some audioData => perform (Emit (EvAudio audioData))
              | None => throw
              end
            else ret tt
        | _, _ => ret tt
        end
      else if String.eqb tag "response.text.delta"
              || String.eqb tag "response.text.done" then
        perform (Emit (EvContent (mkContent (or_else (msg_text m) (msg_delta m)))))
      else if String.eqb tag "response.done" then
        perform (Emit EvTurnComplete)
      else if String.eqb tag "response.cancelled" then
        perform (Emit EvInterrupted)
      else if String.eqb tag "error" then
        perform (Emit (EvError (error_message (msg_error m))))
      else ret tt
  end.

(** [ws.onmessage] / [dc.onmessage] after a successful [JSON.parse]: an
    exception of [handleMessage] is caught and logged to the console. *)
Definition onmessage (m : ServerMessage) : M t unit :=
  try_catch (handleMessage m) (ret tt).

(** ** Commands *)

Definition sendAudio (audioData : list byte) : M t unit :=
  c <- get;;
  match connectionType c with
  | webrtc =>
      (* WebRTC handles audio through media tracks, not data channel *)
      ret tt
  | websocket =>
      if is_open (ws c) then
        send (audio_append (Base64.arrayBufferToBase64 audioData))
      else ret tt
  end.

Definition sendText (text : string) : M t unit :=
  send (conversation_item_create text);;
  (* Trigger response generation *)
  send response_create.

Definition disconnect : M t bool :=
  c <- get;;
  match pc c with
  | Some _ => perform PcClose;; modify (set_pc None)
  | None => ret tt
  end;;
  c <- get;;
  match dc c with
  | Some _ => perform DcClose;; modify (set_dc None)
  | None => ret tt
  end;;
  c <- get;;
  match ws c with
  | Some _ => perform WsClose;; modify (set_ws None)
  | None => ret tt
  end;;
  c <- get;;
  match audioElement c with
  | Some _ => perform AudioPause;; modify (set_audioElement None)
  | None => ret tt
  end;;
  modify (set_status disconnected);;
  ret true.

End OpenAIRealtimeClient.

(** [ref.current?.method(...)]: the call is made when the reference holds
    an object and skipped otherwise. *)
Definition optional_call {S X A} (current : S -> option X)
  (set_current : option X -> S -> S) (m : M X A) : M S unit :=
  fun s =>
    match current s with
    | Some x =>
        match m x with
        | (Some _, x', t) => (Some tt, set_current (Some x') s, t)
        | (None, x', t) => (None, set_current (Some x') s, t)
        end
    | None => (Some tt, s, [])
    end.

(* ================================================================== *)
(** * [AudioStreamer] (lib/audio-utils.ts): the playback queue         *)
(* ================================================================== *)

Module AudioStreamer.

Record t : Type := mk {
  audioQueue : list Float32Array;
  isPlaying : bool;
  sampleRate : Z
}.

Definition set_audioQueue v c := mk v (isPlaying c) (sampleRate c).
Definition set_isPlaying v c := mk (audioQueue c) v (sampleRate c).
Definition set_sampleRate v c := mk (audioQueue c) (isPlaying c) v.

Definition new : t := mk [] false 24000.

(** [dataView.getInt16(offset, true)] on the two bytes at [offset]. *)
Definition getInt16 (lo hi : byte) : Z :=
  let u := (Z.of_N (Byte.to_N lo) + 256 * Z.of_N (Byte.to_N hi))%Z in
  if (u <? 32768)%Z then u else (u - 65536)%Z.

(** The conversion loop of [addPCM16]: [length / 2] samples, each
    [sample / 32768.0]. *)
Fixpoint pcm16ToFloat32 (pcm16Data : list byte) : Float32Array :=
  match pcm16Data with
  | lo :: hi :: rest =>
      Qmake (getInt16 lo hi) 32768 :: pcm16ToFloat32 rest
  | _ => []
  end.

(** [audioContext.createBuffer(1, length, sampleRate)] raises
    [NotSupportedError] for a length of zero. *)
Definition createBuffer_ok (audioData : Float32Array) : bool :=
  match audioData with
  | [] => false
  | _ :: _ => true
  end.

(** [playQueue] is [async]: when [createBuffer] raises, the fields written
    before it keep their values ([isPlaying] set, the buffer shifted out of
    the queue), no source is started and so no [onended] will follow. *)
Definition playQueue : M t unit :=
  c <- get;;
  match audioQueue c with
  | [] => modify (set_isPlaying false)
  | audioData :: rest =>
      modify (set_isPlaying true);;
      modify (set_audioQueue rest);;
      guard (createBuffer_ok audioData);;
      perform (SourceStart audioData (sampleRate c))
  end.

(** [this.playQueue()] without [await]: the promise is dropped, so a
    rejection does not reach the caller. *)
Definition detached (m : M t unit) : M t unit := try_catch m (ret tt).

Definition addPCM16 (pcm16Data : list byte) : M t unit :=
  modify (fun c => set_audioQueue (audioQueue c ++ [pcm16ToFloat32 pcm16Data]) c);;
  c <- get;;
  if isPlaying c then ret tt else detached playQueue.

(** [source.onended] *)
Definition onended : M t unit := detached playQueue.

Definition stop : M t unit :=
  modify (set_audioQueue []);;
  modify (set_isPlaying false).

Definition setSampleRate (rate : Z) : M t unit := modify (set_sampleRate rate).

End AudioStreamer.

(* ================================================================== *)
(** * [App] (App.tsx): the client listeners and the playback queue     *)
(* ================================================================== *)

Module AppAudio.

(** [audioStreamerRef] *)
Definition t : Type := option AudioStreamer.t.

Definition on_streamer (m : M AudioStreamer.t unit) : M t unit :=
  optional_call (fun r => r) (fun v _ => v) m.

(** The [audio] listener of [setupGeminiHandlers] and of
    [setupOpenAIHandlers]:
    [audioStreamerRef.current?.addPCM16(new Uint8Array(data)); addLog(...)] *)
Definition onAudio (data : list byte) : M t unit :=
  on_streamer (AudioStreamer.addPCM16 data);;
  perform (AddLog (AppReceivedAudio (List.length data))).

(** What an event of the client does to the playback queue.  The two
    handler sets register [open], [close], [audio], [content], [error] (and
    [log]); only the [audio] listener touches the streamer, and no listener
    is registered for [interrupted], [turncomplete] or [setupcomplete]. *)
Definition deliver (e : Event) : M t unit :=
  match e with
  | EvAudio data => onAudio data
  | _ => ret tt
  end.

(** The buffers waiting in the queue. *)
Definition queued (r : t) : list Float32Array :=
  match r with
  | Some s => AudioStreamer.audioQueue s
  | None => []
  end.

(** What can happen to the queue: an event of the client is delivered, or
    the buffer source that is playing ends. *)
Inductive Occurrence : Type :=
| Delivered (e : Event)
| SourceEnded.

Definition step (o : Occurrence) : M t unit :=
  match o with
  | Delivered e => deliver e
  | SourceEnded => on_streamer AudioStreamer.onended
  end.

Fixpoint run (os : list Occurrence) : M t unit :=
  match os with
  | [] => ret tt
  | o :: rest => step o;; run rest
  end.

End AppAudio.

(** The buffers handed to the audio output along a trace, in order. *)
Fixpoint started (t : Trace) : list Float32Array :=
  match t with
  | [] => []
  | SourceStart buffer _ :: rest => buffer :: started rest
  | _ :: rest => started rest
  end.

(** The buffers enqueued by the [audio] events of a timeline. *)
Fixpoint enqueued (os : list AppAudio.Occurrence) : list Float32Array :=
  match os with
  | [] => []
  | AppAudio.Delivered (EvAudio data) :: rest =>
      AudioStreamer.pcm16ToFloat32 data :: enqueued rest
  | _ :: rest => enqueued rest
  end.

(* ================================================================== *)
(** * [App] (App.tsx): capture, batching and [stopRecording]           *)
(* ================================================================== *)

Module App.

(** The refs and state of the component that recording touches. *)
Record t : Type := mk {
  selectedModel : Provider;                       (* [ModelType] *)
  isConnected : bool;
  isRecording : bool;
  geminiClientRef : option GeminiClient.t;
  openaiClientRef : option OpenAIRealtimeClient.t;
  recorderStream : bool;                          (* [AudioRecorder.stream !== null] *)
  audioChunkBufferRef : list (list byte);
  sendIntervalRef : option nat
}.

Definition set_isRecording v a :=
  mk (selectedModel a) (isConnected a) v (geminiClientRef a)
     (openaiClientRef a) (recorderStream a) (audioChunkBufferRef a)
     (sendIntervalRef a).
Definition set_geminiClientRef v a :=
  mk (selectedModel a) (isConnected a) (isRecording a) v
     (openaiClientRef a) (recorderStream a) (audioChunkBufferRef a)
     (sendIntervalRef a).
Definition set_openaiClientRef v a :=
  mk (selectedModel a) (isConnected a) (isRecording a) (geminiClientRef a)
     v (recorderStream a) (audioChunkBufferRef a) (sendIntervalRef a).
Definition set_recorderStream v a :=
  mk (selectedModel a) (isConnected a) (isRecording a) (geminiClientRef a)
     (openaiClientRef a) v (audioChunkBufferRef a) (sendIntervalRef a).
Definition set_audioChunkBufferRef v a :=
  mk (selectedModel a) (isConnected a) (isRecording a) (geminiClientRef a)
     (openaiClientRef a) (recorderStream a) v (sendIntervalRef a).
Definition set_sendIntervalRef v a :=
  mk (selectedModel a) (isConnected a) (isRecording a) (geminiClientRef a)
     (openaiClientRef a) (recorderStream a) (audioChunkBufferRef a) v.

Definition on_gemini {A} (m : M GeminiClient.t A) : M t unit :=
  optional_call geminiClientRef set_geminiClientRef m.

Definition on_openai {A} (m : M OpenAIRealtimeClient.t A) : M t unit :=
  optional_call openaiClientRef set_openaiClientRef m.

Definition pcm_mime : string := "audio/pcm;rate=16000".

(** [audioChunkBufferRef.current.map(buffer => ({ mimeType, data }))] *)
Definition to_chunks (buffers : list (list byte)) : list Media :=
  map (fun buffer => MediaInline pcm_mime (Base64.arrayBufferToBase64 buffer))
      buffers.

(** The callback of [setInterval(..., 100)] installed by [startRecording]. *)
Definition interval_tick : M t unit :=
  a <- get;;
  if (0 <? List.length (audioChunkBufferRef a))%nat then
    let chunks := to_chunks (audioChunkBufferRef a) in
    on_gemini (GeminiClient.sendRealtimeInput chunks);;
    perform (AddLog (AppSentChunks (List.length chunks)));;
    modify (set_audioChunkBufferRef [])
  else ret tt.

(** The callback given to [audioRecorderRef.current.start]: one captured
    frame. *)
Definition on_audio_data (audioData : list byte) : M t unit :=
  a <- get;;
  match selectedModel a with
  | gemini =>
      (* Send immediately as Blob (sample parity) *)
      on_gemini (GeminiClient.sendRealtimeInput [MediaBlob audioData pcm_mime])
  | openai =>
      on_openai (OpenAIRealtimeClient.sendAudio audioData)
  end.

(** [startRecording], with the timer id the host gives and whether the
    microphone is granted.  The view updates ([alert], [addMessage]) are not
    part of the model. *)
Definition startRecording (timer : nat) (granted : bool) : M t unit :=
  a <- get;;
  if isConnected a then
    try_catch
      (perform (AddLog AppStartingRecording);;
       (* Clear buffer *)
       modify (set_audioChunkBufferRef []);;
       (* For Gemini, we need to batch and send audio chunks periodically *)
       match selectedModel a with
       | gemini => modify (set_sendIntervalRef (Some timer))
       | openai => ret tt
       end;;
       perform RecorderStart;;
       guard granted;;
       modify (set_recorderStream true);;
       modify (set_isRecording true);;
       perform (AddLog AppRecordingStarted))
      (perform (AddLog AppRecordingError))
  else ret tt.

Definition stopRecording : M t unit :=
  a <- get;;
  match sendIntervalRef a with
  | Some id =>
      perform (ClearInterval id);;
      modify (set_sendIntervalRef None);;
      (* Send any remaining buffered audio *)
      match selectedModel a with
      | gemini =>
          if (0 <? List.length (audioChunkBufferRef a))%nat then
            let chunks := to_chunks (audioChunkBufferRef a) in
            on_gemini (GeminiClient.sendRealtimeInput chunks);;
            perform (AddLog (AppSentFinalChunks (List.length chunks)));;
            modify (set_audioChunkBufferRef []);;
            (* signal end of turn so the model can respond *)
            on_gemini GeminiClient.endTurn;;
            perform (AddLog AppSentTurnComplete)
          else ret tt
      | openai => ret tt
      end
  | None => ret tt
  end;;
  perform RecorderStop;;
  modify (set_recorderStream false);;
  modify (set_isRecording false);;
  perform (AddLog AppRecordingStopped).

(** What happens while recording: a frame is captured, or the batching
    timer fires. *)
Inductive Capture : Type :=
| Frame (audioData : list byte)
| Tick.

Fixpoint record (cs : list Capture) : M t unit :=
  match cs with
  | [] => ret tt
  | Frame audioData :: rest => on_audio_data audioData;; record rest
  | Tick :: rest => interval_tick;; record rest
  end.

End App.

(** The calls made on the Gemini live session along a trace, in order. *)
Definition session_calls (t : Trace) : Trace := filter is_session_call t.

(* ================================================================== *)
(** * [UnifiedLiveClient] (lib/unified-live-client.ts)                 *)
(* ================================================================== *)

(** The capability set the session object uses of an adapter. *)
Class LiveAdapter (A : Type) : Type := {
  adapter_env : Type;
  adapter_connect : adapter_env -> string -> Config -> M A bool;
  adapter_disconnect : M A bool
}.

#[export] Instance GeminiClient_adapter : LiveAdapter GeminiClient.t := {|
  adapter_env := GeminiClient.LiveOutcome;
  adapter_connect := GeminiClient.connect;
  adapter_disconnect := GeminiClient.disconnect
|}.

#[export] Instance OpenAIRealtimeClient_adapter
  : LiveAdapter OpenAIRealtimeClient.t := {|
  adapter_env := OpenAIRealtimeClient.ConnectEnv;
  adapter_connect := OpenAIRealtimeClient.connect;
  adapter_disconnect := OpenAIRealtimeClient.disconnect
|}.

Module UnifiedLiveClient.

Section Unified.

(** The Gemini-side adapter ([GenAILiveClient]) enters only through the
    capability set. *)
Context {G : Type} `{LiveAdapter G}.

Record t : Type := mk {
  geminiClient : option G;
  openaiClient : option OpenAIRealtimeClient.t;
  _currentProvider : Provider;
  _status : Status
}.

Definition set_geminiClient v u :=
  mk v (openaiClient u) (_currentProvider u) (_status u).
Definition set_openaiClient v u :=
  mk (geminiClient u) v (_currentProvider u) (_status u).
Definition set_currentProvider v u :=
  mk (geminiClient u) (openaiClient u) v (_status u).
Definition set_status v u :=
  mk (geminiClient u) (openaiClient u) (_currentProvider u) v.

(** The listeners of [setupGeminiEvents] / [setupOpenAIEvents] re-emit
    every adapter event; [open] and [close] also move [_status]. *)
Fixpoint forward_status (t : Trace) (st : Status) : Status :=
  match t with
  | [] => st
  | Emit EvOpen :: rest => forward_status rest connected
  | Emit EvClose :: rest => forward_status rest disconnected
  | _ :: rest => forward_status rest st
  end.

(** A call on an adapter object, with its events forwarded. *)
Definition on_adapter {X A} (current : t -> option X)
  (set_current : option X -> t -> t) (m : M X A) : M t A :=
  fun u =>
    match current u with
    | Some x =>
        match m x with
        | (r, x', tr) =>
            let u' := set_current (Some x') u in
            (r, set_status (forward_status tr (_status u')) u', tr)
        end
    | None => (None, u, [])
    end.

Definition connect (env_gemini : adapter_env)
  (env_openai : OpenAIRealtimeClient.ConnectEnv)
  (model : string) (config : Config) : M t bool :=
  u <- get;;
  match _status u with
  | connected | connecting => ret false
  | disconnected =>
      modify (set_status connecting);;
      try_catch
        (match _currentProvider u with
         | gemini =>
             match geminiClient u with
             | None => throw
             | Some _ =>
                 on_adapter geminiClient set_geminiClient
                   (adapter_connect env_gemini model config)
             end
         | openai =>
             match openaiClient u with
             | None => throw
             | Some _ =>
                 on_adapter openaiClient set_openaiClient
                   (OpenAIRealtimeClient.connect env_openai model config)
             end
         end)
        (modify (set_status disconnected);; throw)
  end.

Definition disconnect : M t bool :=
  u <- get;;
  let call :=
    match _currentProvider u with
    | gemini =>
        match geminiClient u with
        | Some _ => Some (on_adapter geminiClient set_geminiClient adapter_disconnect)
        | None => None
        end
    | openai =>
        match openaiClient u with
        | Some _ => Some (on_adapter openaiClient set_openaiClient
                            OpenAIRealtimeClient.disconnect)
        | None => None
        end
    end in
  match call with
  | Some activeClient_disconnect =>
      result <- activeClient_disconnect;;
      (if result then modify (set_status disconnected) else ret tt);;
      ret result
  | None => ret false
  end.

Definition switchProvider (provider : Provider) : M t unit :=
  u <- get;;
  if Provider_eqb provider (_currentProvider u) then ret tt
  else
    (* Disconnect current provider *)
    disconnect;;
    (* Switch to new provider *)
    modify (set_currentProvider provider);;
    perform (Emit (EvProviderChanged provider)).

End Unified.

Arguments t G : clear implicits.

End UnifiedLiveClient.

(* ================================================================== *)
(** * The inbound mapping as the specification words it                *)
(* ================================================================== *)

Module Spec.

(** What an inbound message tag becomes on the canonical surface. *)
Inductive Canonical : Type :=
| NotForwarded
| AsAudio
| AsContent
| AsTurnComplete
| AsInterrupted
| AsError.

(** "session-created/updated -> (internal, not forwarded), audio-delta ->
    audio, text-delta/done -> content, response-done -> turncomplete,
    response-cancelled -> interrupted, error -> error"; unmapped tags are not
    forwarded. *)
Definition inbound_mapping (tag : string) : Canonical :=
  if String.eqb tag "session.created" then NotForwarded
  else if String.eqb tag "session.updated" then NotForwarded
  else if String.eqb tag "response.audio.delta" then AsAudio
  else if String.eqb tag "response.text.delta" then AsContent
  else if String.eqb tag "response.text.done" then AsContent
  else if String.eqb tag "response.done" then AsTurnComplete
  else if String.eqb tag "response.cancelled" then AsInterrupted
  else if String.eqb tag "error" then AsError
  else NotForwarded.

End Spec.

(* ================================================================== *)
(** * Sample states and environments                                   *)
(* ================================================================== *)

Module Samples.

Import OpenAIRealtimeClient.

(** A client in media-track mode after a completed handshake whose data
    channel has opened. *)
Definition rtc_client : OpenAIRealtimeClient.t :=
  mk None (Some handle) (Some OPEN) (Some handle) "sk-test" webrtc connected None.

(** A client in message-stream mode whose socket is open. *)
Definition socket_client : OpenAIRealtimeClient.t :=
  mk (Some OPEN) None None None "sk-test" websocket connected None.

(** A handshake in which every step succeeds. *)
Definition rtc_all_ok : RtcEnv :=
  mkRtcEnv (Some "ek_123") true (Some 1%nat) true (Some "v=0 offer") true
           (SigAnswer (Some "v=0 answer")) true.

(** Credential issuance fails; every later step succeeds. *)
Definition rtc_no_credential : RtcEnv :=
  mkRtcEnv None true (Some 1%nat) true (Some "v=0 offer") true
           (SigAnswer (Some "v=0 answer")) true.

(** The call endpoint answers with an error status. *)
Definition rtc_call_rejected : RtcEnv :=
  mkRtcEnv (Some "ek_123") true (Some 1%nat) true (Some "v=0 offer") true
           (SigRejected "Unauthorized") true.

Definition env_of (e : RtcEnv) : ConnectEnv := mkConnectEnv e SocketTimedOut.

Definition socket_opens : ConnectEnv := mkConnectEnv rtc_all_ok SocketOpened.

Definition sample_config : Config := mkConfig (Some "cedar") None.

(** A live session on which no call throws. *)
Definition quiet_session : GeminiClient.Session :=
  GeminiClient.mkSession (fun _ => None) None.

(** A live session that refuses blobs and accepts inline chunks. *)
Definition flaky_session : GeminiClient.Session :=
  GeminiClient.mkSession
    (fun media => match media with
                  | MediaBlob _ _ => Some "blob refused"
                  | MediaInline _ _ => None
                  end)
    None.

Definition gemini_connected : GeminiClient.t :=
  GeminiClient.mk (Some quiet_session) connected.

(** [connect] is awaiting [live.connect]: no session yet. *)
Definition gemini_connecting : GeminiClient.t :=
  GeminiClient.mk None connecting.

Definition unified_on_openai : UnifiedLiveClient.t GeminiClient.t :=
  UnifiedLiveClient.mk (Some gemini_connected) (Some rtc_client) openai connected.

(** Three PCM16 buffers of two samples each. *)
Definition pcm_a : list byte := [x00; x40; x00; xc0].
Definition pcm_b : list byte := [xff; x7f; x00; x80].
Definition pcm_c : list byte := [x01; x00; xff; xff].

(** The application connected to Gemini, not yet recording. *)
Definition app_on_gemini : App.t :=
  App.mk gemini true false (Some gemini_connected) None false [] None.

(** A state of the batching path with two frames left in the chunk
    buffer. *)
Definition app_with_tail : App.t :=
  App.mk gemini true true (Some gemini_connected) None true [pcm_a; pcm_b]
         (Some 7%nat).

End Samples.

(* ================================================================== *)
(** * [GeminiClient.handleMessage] (lib/gemini-client.ts)              *)
(* ================================================================== *)

Module GeminiInbound.

(** [part.inlineData] *)
Record InlineData : Type := mkInlineData {
  mimeType : option string;
  data : option string
}.

(** A [Part] of a model turn, by what [handleMessage] looks at. *)
Record Part : Type := mkPart {
  inlineData : option InlineData;
  text : option string
}.

(** [serverContent.modelTurn]: [parts] may be absent. *)
Record ModelTurn : Type := mkModelTurn { parts : option (list Part) }.

(** [message.serverContent]; a flag is [true] when the key is present with
    a truthy value. *)
Record ServerContent : Type := mkServerContent {
  interrupted : bool;
  turnComplete : bool;
  modelTurn : option ModelTurn
}.

Record LiveServerMessage : Type := mkLiveServerMessage {
  setupComplete : bool;
  serverContent : option ServerContent
}.

(** Lines of the [log] event written while handling a message. *)
Inductive InboundLog : Type :=
| LogSetupComplete
| LogResponseInterrupted
| LogTurnComplete
| LogReceivedAudio (byteLength : nat)
| LogReceivedText.

(** What [handleMessage] emits. *)
Inductive Emission : Type :=
| EmSetupComplete
| EmInterrupted
| EmTurnComplete
| EmAudio (audio : list byte)
| EmContent (otherParts : list Part)
| EmLog (line : InboundLog).

(** [p.inlineData && p.inlineData.mimeType?.startsWith("audio/pcm")] *)
Definition is_audio (p : Part) : bool :=
  match inlineData p with
  | Some i =>
      match mimeType i with
      | Some m => String.prefix "audio/pcm" m
      | None => false
      end
  | None => false
  end.

(** [part.inlineData?.data], when truthy. *)
Definition payload (p : Part) : option string :=
  match inlineData p with
  | Some i =>
      match data i with
      | Some d => if String.eqb d EmptyString then None else Some d
      | None => None
      end
  | None => None
  end.

(** The [forEach] over the audio parts.  The flag is [true] when [atob]
    raised; what was emitted before stays emitted. *)
Fixpoint emit_audio (audioParts : list Part) : list Emission * bool :=
  match audioParts with
  | [] => ([], false)
  | part :: rest =>
      match payload part with
      | None => emit_audio rest
      | Some d =>
          match Base64.base64ToArrayBuffer d with
          | None => ([], true)
          | Some bytes =>
              let (es, raised) := emit_audio rest in
              (EmAudio bytes :: EmLog (LogReceivedAudio (List.length bytes)) :: es,
               raised)
          end
      end
  end.

Definition has_text (p : Part) : bool :=
  match text p with Some _ => true | None => false end.

(** [handleMessage(message)]: the emissions in order, and whether an
    exception escaped.  No field of the client is read or written. *)
Definition handleMessage (message : LiveServerMessage) : list Emission * bool :=
  if setupComplete message then
    ([EmLog LogSetupComplete; EmSetupComplete], false)
  else
    match serverContent message with
    | None => ([], false)
    | Some sc =>
        if interrupted sc then ([EmLog LogResponseInterrupted; EmInterrupted], false)
        else if turnComplete sc then ([EmLog LogTurnComplete; EmTurnComplete], false)
        else
          match modelTurn sc with
          | None => ([], false)
          | Some turn =>
              let ps := match parts turn with Some l => l | None => [] end in
              let audioParts := filter is_audio ps in
              match emit_audio audioParts with
              | (es, true) => (es, true)
              | (es, false) =>
                  let otherParts := filter (fun p => negb (is_audio p)) ps in
                  if (0 <? List.length otherParts)%nat then
                    (es ++ EmContent otherParts ::
                       (if (0 <? List.length (filter has_text otherParts))%nat
                        then [EmLog LogReceivedText] else []),
                     false)
                  else (es, false)
              end
          end
    end.

(** The audio buffers among the emissions, in order. *)
Fixpoint audio_of (es : list Emission) : list (list byte) :=
  match es with
  | [] => []
  | EmAudio b :: rest => b :: audio_of rest
  | _ :: rest => audio_of rest
  end.

(** The payloads of the [content] emissions, in order. *)
Fixpoint content_of (es : list Emission) : list (list Part) :=
  match es with
  | [] => []
  | EmContent ps :: rest => ps :: content_of rest
  | _ :: rest => content_of rest
  end.

(** An inline audio part carrying the given buffer. *)
Definition audio_part (buffer : list byte) : Part :=
  mkPart (Some (mkInlineData (Some "audio/pcm;rate=24000")
                             (Some (Base64.arrayBufferToBase64 buffer))))
         None.

(** A model turn with the given parts and no flag set. *)
Definition model_turn (ps : list Part) : LiveServerMessage :=
  mkLiveServerMessage false
    (Some (mkServerContent false false (Some (mkModelTurn (Some ps))))).

End GeminiInbound.

(* ================================================================== *)
(** * Notions used to state further properties                         *)
(* ================================================================== *)

(** What [sendRealtimeInput] reports for a batch: one [log] and one
    [error] event for every chunk whose send throws, in order. *)
Definition send_reports (s : GeminiClient.Session) (chunks : list Media)
  : list Event :=
  flat_map (fun chunk => match GeminiClient.realtime_input_error s chunk with
                         | Some m => [EvLog (LogSendFailed m); EvError m]
                         | None => []
                         end) chunks.

(** The number of chunks of a batch whose send does not throw. *)
Definition accepted (s : GeminiClient.Session) (chunks : list Media) : nat :=
  List.length (filter (fun chunk =>
                         match GeminiClient.realtime_input_error s chunk with
                         | Some _ => false
                         | None => true
                         end) chunks).

(** The captured frames of a recording, in order. *)
Fixpoint frames (cs : list App.Capture) : list (list byte) :=
  match cs with
  | [] => []
  | App.Frame audioData :: rest => audioData :: frames rest
  | App.Tick :: rest => frames rest
  end.

(** No [interrupted] event is delivered along a timeline. *)
Fixpoint no_interruption (os : list AppAudio.Occurrence) : bool :=
  match os with
  | [] => true
  | AppAudio.Delivered EvInterrupted :: _ => false
  | _ :: rest => no_interruption rest
  end.

(** The number of buffer sources sounding at the end of a timeline, given
    the number sounding at its start: every [SourceStart] adds one, every
    [SourceEnded] takes one away.  [None] when the timeline ends a source
    while none is sounding. *)
Fixpoint sounding (os : list AppAudio.Occurrence) (r : AppAudio.t)
  (active : nat) : option nat :=
  match os with
  | [] => Some active
  | o :: rest =>
      match o, active with
      | AppAudio.SourceEnded, O => None
      | _, _ =>
          match AppAudio.step o r with
          | (_, r', tr) =>
              let ended := match o with
                           | AppAudio.SourceEnded => 1%nat
                           | _ => 0%nat
                           end in
              sounding rest r' (active + List.length (started tr) - ended)
          end
      end
  end.

(** What the queue keeps between occurrences: at most one source is
    sounding, and while [isPlaying] is clear none is and nothing waits. *)
Definition in_step (s : AudioStreamer.t) (active : nat) : Prop :=
  (active <= 1)%nat
  /\ (AudioStreamer.isPlaying s = false ->
      active = 0%nat /\ AudioStreamer.audioQueue s = []).

(** The release calls due for what an adapter holds: one per handle, in
    the order peer connection, data channel, socket, audio element. *)
Definition held_closes (o : OpenAIRealtimeClient.t) : Trace :=
  (match OpenAIRealtimeClient.pc o with Some _ => [PcClose] | None => [] end)
  ++ (match OpenAIRealtimeClient.dc o with Some _ => [DcClose] | None => [] end)
  ++ (match OpenAIRealtimeClient.ws o with Some _ => [WsClose] | None => [] end)
  ++ (match OpenAIRealtimeClient.audioElement o with
      | Some _ => [AudioPause]
      | None => []
      end).

(** The part of [OpenAIRealtimeClient.connect] that runs before its first
    [await]: the guard, the status write, and the request the attempt opens
    with (the [fetch] of [getEphemeralKey] in media-track mode, the
    [new WebSocket] of [connectWebSocket] in message-stream mode).  The
    result says whether an attempt was started; it is then in flight until
    the environment answers. *)
Definition connect_until_first_await (model : string) (config : Config)
  : M OpenAIRealtimeClient.t bool :=
  c <- get;;
  match OpenAIRealtimeClient._status c with
  | connected | connecting => ret false
  | disconnected =>
      modify (OpenAIRealtimeClient.set_status connecting);;
      match OpenAIRealtimeClient.connectionType c with
      | webrtc =>
          perform (FetchClientSecrets (OpenAIRealtimeClient.apiKey c)
                     (OpenAIRealtimeClient.client_secrets_body model config))
      | websocket =>
          perform (NewWebSocket (OpenAIRealtimeClient.socket_url model));;
          modify (OpenAIRealtimeClient.set_ws (Some CONNECTING))
      end;;
      ret true
  end.

(** The requests that open a connect attempt, along a trace. *)
Definition attempts_opened (t : Trace) : Trace :=
  filter (fun e => match e with
                   | FetchClientSecrets _ _ | NewWebSocket _ => true
                   | _ => false
                   end) t.

(** A whole recording: [startRecording] with the microphone granted, what
    is captured, then [stopRecording]. *)
Definition recording_session (timer : nat) (cs : list App.Capture)
  : M App.t unit :=
  App.startRecording timer true;;
  App.record cs;;
  App.stopRecording.

(** The blob the capture callback makes of a frame on the Gemini path. *)
Definition frame_blob (audioData : list byte) : Effect :=
  SessionSendRealtimeInput (MediaBlob audioData App.pcm_mime).

(* ================================================================== *)
(** * [useLiveAPI]: [connect] (hooks/use-live-api.ts)                  *)
(* ================================================================== *)

Module LiveAPIHook.

Section Hook.

Context {G : Type} `{LiveAdapter G}.

(** [client.disconnect(); await client.connect(model, config);]  The
    hook's [config] state starts as an object and is passed on as it is, so
    the guard [if (!config) throw] is not taken. *)
Definition connect (env_gemini : adapter_env)
  (env_openai : OpenAIRealtimeClient.ConnectEnv)
  (model : string) (config : Config) : M (UnifiedLiveClient.t G) unit :=
  UnifiedLiveClient.disconnect;;
  UnifiedLiveClient.connect env_gemini env_openai model config;;
  ret tt.

(** [client.disconnect(); setConnected(false);] *)
Definition disconnect : M (UnifiedLiveClient.t G) unit :=
  UnifiedLiveClient.disconnect;;
  ret tt.

End Hook.

End LiveAPIHook.

(* ================================================================== *)
(** * Properties                                                       *)
(* ================================================================== *)

Example btoa_Man : Base64.btoa "Man" = "TWFu".
Proof. reflexivity. Qed.

Example btoa_Ma : Base64.btoa "Ma" = "TWE=".
Proof. reflexivity. Qed.

Example btoa_M : Base64.btoa "M" = "TQ==".
Proof. reflexivity. Qed.

Example atob_spaced : Base64.atob "T W E=" = Some "Ma".
Proof. reflexivity. Qed.

Example atob_unpadded : Base64.atob "TQ" = Some "M".
Proof. reflexivity. Qed.

Example atob_bad_length : Base64.atob "TWFuT" = None.
Proof. reflexivity. Qed.

Example atob_bad_char : Base64.atob "TW-u" = None.
Proof. reflexivity. Qed.

Section Base64_roundtrip.

Import Base64.
Local Open Scope N_scope.

(** Induction over a list three elements at a time. *)
Lemma list_ind3 {A : Type} (P : list A -> Prop) :
  P [] -> (forall a, P [a]) -> (forall a b, P [a; b]) ->
  (forall a b c l, P l -> P (a :: b :: c :: l)) ->
  forall l, P l.
Proof.
  intros H0 H1 H2 H3.
  assert (H : forall l, P l /\ (forall a, P (a :: l)) /\ (forall a b, P (a :: b :: l))).
  { induction l as [|x l [IH0 [IH1 IH2]]].
    - repeat split; auto.
    - repeat split; auto. }
  intro l. apply H.
Qed.

Lemma b64_value_char_table :
  forallb (fun k => match b64_value (b64_char (N.of_nat k)) with
                    | Some v => v =? N.of_nat k
                    | None => false
                    end) (seq 0 64) = true.
Proof. vm_compute. reflexivity. Qed.

Lemma b64_value_char (n : N) : n < 64 -> b64_value (b64_char n) = Some n.
Proof.
  intro Hn.
  pose proof (proj1 (forallb_forall _ _) b64_value_char_table (N.to_nat n)) as H.
  assert (Hin : In (N.to_nat n) (seq 0 64)) by (apply in_seq; lia).
  specialize (H Hin). cbv beta in H. rewrite N2Nat.id in H.
  destruct (b64_value (b64_char n)) as [v|]; [|discriminate].
  apply N.eqb_eq in H. now subst.
Qed.

Lemma b64_value_not_whitespace (c : ascii) (v : N) :
  b64_value c = Some v -> is_ascii_whitespace c = false.
Proof.
  destruct c as [[] [] [] [] [] [] [] []]; vm_compute; congruence.
Qed.

Lemma b64_value_pad : b64_value pad_char = None.
Proof. reflexivity. Qed.

Lemma pad_not_whitespace : is_ascii_whitespace pad_char = false.
Proof. reflexivity. Qed.

Lemma group24_bound (a b c : ascii) : group24 a b c < 16777216.
Proof.
  unfold group24.
  pose proof (N_ascii_bounded a). pose proof (N_ascii_bounded b).
  pose proof (N_ascii_bounded c). lia.
Qed.

Lemma digits_bound (n : N) :
  n < 16777216 ->
  digit0 n < 64 /\ digit1 n < 64 /\ digit2 n < 64 /\ digit3 n < 64.
Proof.
  intro Hn. unfold digit0, digit1, digit2, digit3.
  repeat split; try (apply N.mod_lt; discriminate).
  apply N.Div0.div_lt_upper_bound. lia.
Qed.

Ltac div_mod_lia := zify; Z.to_euclidean_division_equations; lia.

Lemma digits_recompose (n : N) :
  digit0 n * 262144 + digit1 n * 4096 + digit2 n * 64 + digit3 n = n.
Proof. unfold digit0, digit1, digit2, digit3. div_mod_lia. Qed.

Lemma group24_octets (a b c : N) :
  a < 256 -> b < 256 -> c < 256 ->
  let n := a * 65536 + b * 256 + c in
  n / 65536 = a /\ (n / 256) mod 256 = b /\ n mod 256 = c.
Proof. intros Ha Hb Hc n. subst n. div_mod_lia. Qed.

Lemma tail18_octets (a b : N) :
  a < 256 -> b < 256 ->
  let n := a * 65536 + b * 256 + 0 in
  let m := (digit0 n * 4096 + digit1 n * 64 + digit2 n) / 4 in
  m / 256 = a /\ m mod 256 = b.
Proof.
  intros Ha Hb n m. subst m n. unfold digit0, digit1, digit2. div_mod_lia.
Qed.

Lemma tail12_octet (a : N) :
  a < 256 ->
  let n := a * 65536 + 0 * 256 + 0 in
  (digit0 n * 64 + digit1 n) / 16 = a.
Proof. intros Ha n. subst n. unfold digit0, digit1. div_mod_lia. Qed.

(** Decoding the digits of a binary string gives the string back. *)
Lemma octets_sextets (l : list ascii) : octets (sextets l) = l.
Proof.
  induction l as [| a | a b | a b c l IH] using list_ind3.
  - reflexivity.
  - cbn [sextets octets]. cbv zeta. unfold group24.
    change (N_of_ascii zero) with 0.
    rewrite (tail12_octet _ (N_ascii_bounded a)).
    now rewrite ascii_N_embedding.
  - cbn [sextets octets]. cbv zeta. unfold group24.
    change (N_of_ascii zero) with 0.
    destruct (tail18_octets _ _ (N_ascii_bounded a) (N_ascii_bounded b)) as [E1 E2].
    cbv zeta in E1, E2. rewrite E1, E2.
    now rewrite !ascii_N_embedding.
  - cbn [sextets octets]. cbv zeta. rewrite digits_recompose. unfold group24.
    destruct (group24_octets _ _ _ (N_ascii_bounded a) (N_ascii_bounded b)
                (N_ascii_bounded c)) as [E1 [E2 E3]].
    cbv zeta in E1, E2, E3. rewrite E1, E2, E3.
    now rewrite !ascii_N_embedding, IH.
Qed.

Lemma sextets_bound (l : list ascii) : Forall (fun d => d < 64) (sextets l).
Proof.
  induction l as [| a | a b | a b c l IH] using list_ind3; cbn [sextets]; cbv zeta.
  - constructor.
  - destruct (digits_bound _ (group24_bound a zero zero)) as (H0 & H1 & _).
    repeat constructor; assumption.
  - destruct (digits_bound _ (group24_bound a b zero)) as (H0 & H1 & H2 & _).
    repeat constructor; assumption.
  - destruct (digits_bound _ (group24_bound a b c)) as (H0 & H1 & H2 & H3).
    repeat (constructor; [assumption|]). exact IH.
Qed.

Lemma values_of_chars (ds : list N) :
  Forall (fun d => d < 64) ds -> values_of (map b64_char ds) = Some ds.
Proof.
  induction 1 as [|d ds Hd _ IH]; cbn [map values_of].
  - reflexivity.
  - now rewrite (b64_value_char _ Hd), IH.
Qed.

Lemma btoa_chars_split (l : list ascii) :
  btoa_chars l = (map b64_char (sextets l) ++ padding l)%list.
Proof.
  induction l as [| a | a b | a b c l IH] using list_ind3;
    cbn [btoa_chars sextets padding map app]; cbv zeta; try reflexivity.
  now rewrite IH.
Qed.

Lemma padding_cases (l : list ascii) :
  padding l = [] \/ padding l = [pad_char] \/ padding l = [pad_char; pad_char].
Proof.
  induction l as [| a | a b | a b c l IH] using list_ind3; cbn [padding]; auto.
Qed.

Lemma btoa_chars_length (l : list ascii) :
  (List.length (btoa_chars l) mod 4 = 0)%nat.
Proof.
  induction l as [| a | a b | a b c l IH] using list_ind3; try reflexivity.
  cbn [btoa_chars List.length]. cbv zeta. cbn [List.length].
  change (S (S (S (S (List.length (btoa_chars l))))))
    with (4 + List.length (btoa_chars l))%nat.
  rewrite <- Nat.Div0.add_mod_idemp_l. exact IH.
Qed.

Lemma digit_chars_no_pad (ds : list N) :
  Forall (fun d => d < 64) ds ->
  Forall (fun c => Ascii.eqb c pad_char = false) (map b64_char ds).
Proof.
  induction 1 as [|d ds Hd _ IH]; cbn [map]; constructor; [|exact IH].
  destruct (Ascii.eqb_spec (b64_char d) pad_char) as [E|]; [|reflexivity].
  pose proof (b64_value_char _ Hd) as Hv. rewrite E in Hv. discriminate.
Qed.

Lemma digit_chars_no_whitespace (ds : list N) :
  Forall (fun d => d < 64) ds ->
  Forall (fun c => is_ascii_whitespace c = false) (map b64_char ds).
Proof.
  induction 1 as [|d ds Hd _ IH]; cbn [map]; constructor; [|exact IH].
  exact (b64_value_not_whitespace _ _ (b64_value_char _ Hd)).
Qed.

Lemma filter_keep_all {A} (f : A -> bool) (l : list A) :
  Forall (fun x => f x = true) l -> filter f l = l.
Proof.
  induction 1 as [|x l Hx _ IH]; cbn [filter]; [reflexivity|].
  now rewrite Hx, IH.
Qed.

Lemma strip_padding_app (body pads : list ascii) :
  (List.length (body ++ pads) mod 4 = 0)%nat ->
  Forall (fun c => Ascii.eqb c pad_char = false) body ->
  pads = [] \/ pads = [pad_char] \/ pads = [pad_char; pad_char] ->
  strip_padding (body ++ pads) = body.
Proof.
  intros Hlen Hbody Hpads. unfold strip_padding.
  rewrite Hlen. cbn [Nat.eqb]. rewrite rev_app_distr.
  assert (Hrev : Forall (fun c => Ascii.eqb c pad_char = false) (rev body)).
  { apply Forall_forall. intros c Hc. apply in_rev in Hc.
    exact (proj1 (Forall_forall _ _) Hbody c Hc). }
  assert (Hrr : rev (rev body) = body) by apply rev_involutive.
  destruct Hpads as [-> | [-> | ->]]; cbn [rev app].
  - rewrite app_nil_r.
    destruct (rev body) as [|p [|q r]] eqn:E; [reflexivity| |];
      pose proof (Forall_inv Hrev) as Hp; cbv beta in Hp; now rewrite Hp.
  - destruct (rev body) as [|q r] eqn:E.
    + cbn [rev] in Hrr. subst body. reflexivity.
    + pose proof (Forall_inv Hrev) as Hq. cbv beta in Hq.
      change (Ascii.eqb pad_char pad_char) with true. cbv iota.
      rewrite Hq. exact Hrr.
  - change (Ascii.eqb pad_char pad_char) with true. cbv iota. exact Hrr.
Qed.

Lemma atob_btoa_chars (l : list ascii) : atob_chars (btoa_chars l) = Some l.
Proof.
  unfold atob_chars.
  pose proof (sextets_bound l) as Hb.
  rewrite filter_keep_all.
  2:{ rewrite btoa_chars_split. apply Forall_app. split.
      - eapply Forall_impl; [|exact (digit_chars_no_whitespace _ Hb)].
        cbv beta. intros c ->. reflexivity.
      - destruct (padding_cases l) as [-> | [-> | ->]];
          repeat constructor. }
  pose proof (btoa_chars_length l) as Hlen.
  rewrite btoa_chars_split in *.
  rewrite (strip_padding_app _ _ Hlen (digit_chars_no_pad _ Hb) (padding_cases l)).
  rewrite (values_of_chars _ Hb), octets_sextets.
  destruct (List.length (map b64_char (sextets l)) mod 4 =? 1)%nat eqn:E;
    [|reflexivity].
  exfalso. apply Nat.eqb_eq in E. rewrite length_map in E.
  clear Hlen Hb. revert E.
  induction l as [| a | a b | a b c l IH] using list_ind3;
    cbn [sextets List.length]; cbv zeta; try discriminate.
  cbn [List.length].
  change (S (S (S (S (List.length (sextets l))))))
    with (4 + List.length (sextets l))%nat.
  rewrite <- Nat.Div0.add_mod_idemp_l. exact IH.
Qed.

Lemma atob_btoa (binary : string) : atob (btoa binary) = Some binary.
Proof.
  unfold atob, btoa.
  rewrite list_ascii_of_string_of_list_ascii, atob_btoa_chars.
  now rewrite string_of_list_ascii_of_string.
Qed.

Lemma bytes_of_binary_of_bytes (bytes : list byte) :
  bytes_of_binary (binary_of_bytes bytes) = bytes.
Proof.
  induction bytes as [|x rest IH]; cbn [binary_of_bytes bytes_of_binary].
  - reflexivity.
  - now rewrite byte_of_ascii_of_byte, IH.
Qed.

Lemma decode_encode (buffer : list byte) :
  base64ToArrayBuffer (arrayBufferToBase64 buffer) = Some buffer.
Proof.
  unfold base64ToArrayBuffer, arrayBufferToBase64.
  now rewrite atob_btoa, bytes_of_binary_of_bytes.
Qed.

(** C10.  Decoding the base64 encoding of a byte buffer gives back the same
    buffer, byte for byte: [base64ToArrayBuffer] after [arrayBufferToBase64]
    is the identity (and never raises). *)
Theorem base64_roundtrip (buffer : list byte) :
  base64ToArrayBuffer (arrayBufferToBase64 buffer) = Some buffer.
Proof. exact (decode_encode buffer). Qed.

End Base64_roundtrip.

(* ================================================================== *)
(** * The adapters' commands                                           *)
(* ================================================================== *)

Section Adapter_commands.

Import OpenAIRealtimeClient Samples.

(** C8.  In media-track (WebRTC) mode [sendAudio] is a no-op for every
    audio buffer: it returns normally, the trace is empty (nothing goes to
    the data channel or to any other channel) and every field of the
    adapter is unchanged. *)
Theorem sendAudio_webrtc_noop (c : OpenAIRealtimeClient.t) (audioData : list byte) :
  connectionType c = webrtc ->
  sendAudio audioData c = (Some tt, c, []).
Proof.
  intro Hmode. unfold sendAudio, bind, get. now rewrite Hmode.
Qed.

Lemma sendAudio_webrtc_noop_witness :
  connectionType rtc_client = webrtc /\
  sendAudio [x01; x02; xff; x7f] rtc_client = (Some tt, rtc_client, []).
Proof.
  split; [reflexivity | apply sendAudio_webrtc_noop; reflexivity].
Defined.

(** In message-stream mode, by contrast, the same call sends one
    [input_audio_buffer.append] message carrying the base64 text. *)
Example sendAudio_socket_sends :
  sendAudio [x01; x02; xff; x7f] socket_client =
  (Some tt, socket_client, [WsSend (audio_append "AQL/fw==")]).
Proof. reflexivity. Qed.


(** C6 (as amended).  On the message-stream adapter, for every text,
    [sendText] with the connection open puts exactly two messages on the
    socket: first one [conversation.item.create] whose item is a user
    message with one [input_text] part holding that text, then one
    [response.create]; nothing comes between them.  While the connection is
    not open it sends nothing.  The adapter's fields are unchanged either
    way. *)
Theorem sendText_item_then_response (c : OpenAIRealtimeClient.t) (text : string) :
  connectionType c = websocket ->
  sendText text c =
    (Some tt, c,
     match ws c with
     | Some OPEN =>
         [WsSend
            (JObj [("type", JStr "conversation.item.create");
                   ("item", JObj [("type", JStr "message");
                                  ("role", JStr "user");
                                  ("content",
                                   JArr [JObj [("type", JStr "input_text");
                                               ("text", JStr text)]])])]);
          WsSend (JObj [("type", JStr "response.create")])]
     | _ => []
     end).
Proof.
  destruct c as [w p d a key mode st cfg]. cbn [connectionType ws].
  intros ->. destruct w as [[ | | | ]|]; reflexivity.
Qed.

Lemma sendText_item_then_response_witness :
  sendText "hello" socket_client =
    (Some tt, socket_client,
     [WsSend
        (JObj [("type", JStr "conversation.item.create");
               ("item", JObj [("type", JStr "message");
                              ("role", JStr "user");
                              ("content",
                               JArr [JObj [("type", JStr "input_text");
                                           ("text", JStr "hello")]])])]);
      WsSend (JObj [("type", JStr "response.create")])]).
Proof.
  exact (sendText_item_then_response socket_client "hello" eq_refl).
Defined.

(** C6 as stated fails: on a message-stream adapter whose socket is not
    open (here before [connect]), [sendText] sends neither message. *)
Lemma sendText_sends_nothing_unless_open :
  connectionType (new "sk-test" websocket) = websocket
  /\ sendText "hello" (new "sk-test" websocket)
     = (Some tt, new "sk-test" websocket, [])
  /\ sendText "hello"
       (mk (Some CONNECTING) None None None "sk-test" websocket connecting None)
     = (Some tt,
        mk (Some CONNECTING) None None None "sk-test" websocket connecting None,
        []).
Proof. repeat split. Qed.

(** The scenario of the specification from the start: connect in
    message-stream mode, the socket opens, then send "hello". *)
Example connect_then_sendText :
  exists c tr,
    connect socket_opens "gpt-realtime" sample_config (new "sk-test" websocket)
      = (Some true, c, tr)
    /\ _status c = connected
    /\ tr = [NewWebSocket "wss://api.openai.com/v1/realtime?model=gpt-realtime";
             Emit EvOpen;
             WsSend (session_update_socket "gpt-realtime" sample_config)]
    /\ sendText "hello" c =
         (Some tt, c,
          [WsSend (conversation_item_create "hello"); WsSend response_create]).
Proof. eexists. eexists. repeat split. Qed.

End Adapter_commands.

(* ================================================================== *)
(** * Connect and disconnect                                           *)
(* ================================================================== *)

Section Session_state.

Import Samples.

Context {G : Type} `{LiveAdapter G}.


End Session_state.


Section Disconnect.

Import Samples.

Lemma openai_disconnect_run (c : OpenAIRealtimeClient.t) :
  exists tr,
    OpenAIRealtimeClient.disconnect c =
      (Some true,
       OpenAIRealtimeClient.mk None None None None
         (OpenAIRealtimeClient.apiKey c) (OpenAIRealtimeClient.connectionType c)
         disconnected (OpenAIRealtimeClient.initialConfig c),
       tr)
    /\ tr = (match OpenAIRealtimeClient.pc c with Some _ => [PcClose] | None => [] end)
            ++ (match OpenAIRealtimeClient.dc c with Some _ => [DcClose] | None => [] end)
            ++ (match OpenAIRealtimeClient.ws c with Some _ => [WsClose] | None => [] end)
            ++ (match OpenAIRealtimeClient.audioElement c with
                | Some _ => [AudioPause] | None => [] end).
Proof.
  destruct c as [[w|] [p|] [d|] [a|] key mode st cfg]; eexists; split; reflexivity.
Qed.

(** C3 (as amended).  [disconnect] is idempotent in its effect on both
    adapters: a second call in a row releases nothing and leaves every field
    as the first call left it.  [OpenAIRealtimeClient.disconnect] closes
    what is held (one release call for each handle held, and no other
    effect), leaves no handle in the fields, forces [disconnected] from any
    state and returns [true], also the second time.
    [GeminiClient.disconnect] with a session closes it once, drops it, sets
    [disconnected] and returns [true]; without a session it returns [false]
    and touches nothing, so the second call returns [false]. *)
Theorem disconnect_idempotent (o : OpenAIRealtimeClient.t) (g : GeminiClient.t) :
  (exists o1,
      OpenAIRealtimeClient.disconnect o = (Some true, o1, held_closes o)
      /\ OpenAIRealtimeClient._status o1 = disconnected
      /\ (OpenAIRealtimeClient.pc o1, OpenAIRealtimeClient.dc o1,
          OpenAIRealtimeClient.ws o1, OpenAIRealtimeClient.audioElement o1)
         = (None, None, None, None)
      /\ OpenAIRealtimeClient.disconnect o1 = (Some true, o1, []))
  /\ (exists r g1 t1,
      GeminiClient.disconnect g = (Some r, g1, t1)
      /\ match GeminiClient.session g with
         | Some _ => r = true
                     /\ GeminiClient._status g1 = disconnected
                     /\ GeminiClient.session g1 = None
                     /\ filter is_network t1 = []
                     /\ filter is_teardown t1 = [SessionClose]
         | None => r = false /\ g1 = g /\ t1 = []
         end
      /\ GeminiClient.disconnect g1 = (Some false, g1, [])).
Proof.
  split.
  - destruct o as [[w|] [p|] [d|] [a|] key mode st cfg];
      eexists; repeat split.
  - destruct g as [[s|] st].
    + exists true. eexists. eexists. split; [reflexivity|].
      repeat split.
    + exists false. eexists. eexists. split; [reflexivity|].
      repeat split.
Qed.

(** C3 as stated fails twice.  On the OpenAI adapter the second call in a
    row returns [true], not the failure signal; on the Gemini adapter a
    call made while [connect] is still awaiting its session leaves the
    status at [connecting]. *)
Lemma disconnect_counterexample :
  (exists o1 t1,
      OpenAIRealtimeClient.disconnect rtc_client = (Some true, o1, t1)
      /\ OpenAIRealtimeClient.disconnect o1 = (Some true, o1, []))
  /\ GeminiClient.disconnect gemini_connecting = (Some false, gemini_connecting, [])
  /\ GeminiClient._status gemini_connecting = connecting.
Proof.
  split; [eexists; eexists; split; reflexivity | split; reflexivity].
Qed.

End Disconnect.

Section Provider_switch.

Context {G : Type} `{LiveAdapter G}.

(** C9.  [switchProvider(P)] while the current provider is already [P]
    returns at once: no adapter is disconnected, the trace is empty (so no
    [providerChanged] is emitted) and the session object, with its adapter
    bindings, is unchanged. *)
Theorem switchProvider_same_noop (u : UnifiedLiveClient.t G) (provider : Provider) :
  UnifiedLiveClient._currentProvider u = provider ->
  UnifiedLiveClient.switchProvider provider u = (Some tt, u, []).
Proof.
  intros <-. unfold UnifiedLiveClient.switchProvider, bind, get.
  destruct (UnifiedLiveClient._currentProvider u); reflexivity.
Qed.

End Provider_switch.

Lemma switchProvider_same_noop_witness :
  UnifiedLiveClient._currentProvider Samples.unified_on_openai = openai
  /\ UnifiedLiveClient.switchProvider openai Samples.unified_on_openai
     = (Some tt, Samples.unified_on_openai, []).
Proof.
  split; [reflexivity | apply switchProvider_same_noop; reflexivity].
Defined.

(** Switching to the other provider does tear down and announce. *)
Example switchProvider_other :
  exists u,
    UnifiedLiveClient.switchProvider gemini Samples.unified_on_openai
    = (Some tt, u, [PcClose; DcClose; AudioPause; Emit (EvProviderChanged gemini)])
    /\ UnifiedLiveClient._currentProvider u = gemini
    /\ UnifiedLiveClient._status u = disconnected.
Proof. eexists. repeat split. Qed.

(* ================================================================== *)
(** * Inbound messages of the message-stream adapter                   *)
(* ================================================================== *)

Section Inbound.

Import OpenAIRealtimeClient Samples.

(** C7 (as amended).  In message-stream mode every inbound message leaves
    the adapter's fields unchanged and is forwarded as the mapping says:
    [session.created] / [session.updated] and every unlisted tag (or a
    message without a tag) emit nothing; [response.text.delta] /
    [response.text.done] emit one [content]; [response.done] one
    [turncomplete]; [response.cancelled] one [interrupted]; [error] one
    [error]; [response.audio.delta] emits one [audio] carrying the decoded
    bytes when its [delta] is a non-empty base64 text, and nothing when
    [delta] is missing, empty or not base64. *)
Theorem onmessage_mapping (c : OpenAIRealtimeClient.t) (m : ServerMessage) :
  connectionType c = websocket ->
  exists events,
    onmessage m c = (Some tt, c, map Emit events)
    /\ match msg_type m with
       | None => events = []
       | Some tag =>
           match Spec.inbound_mapping tag with
           | Spec.NotForwarded => events = []
           | Spec.AsAudio =>
               events =
                 match msg_delta m with
                 | Some delta =>
                     if String.eqb delta EmptyString then []
                     else match Base64.base64ToArrayBuffer delta with
                          | Some audioData => [EvAudio audioData]
                          | None => []
                          end
                 | None => []
                 end
           | Spec.AsContent =>
               events = [EvContent (mkContent (or_else (msg_text m) (msg_delta m)))]
           | Spec.AsTurnComplete => events = [EvTurnComplete]
           | Spec.AsInterrupted => events = [EvInterrupted]
           | Spec.AsError => events = [EvError (error_message (msg_error m))]
           end
       end.
Proof.
  intro Hmode.
  unfold onmessage, handleMessage, Spec.inbound_mapping, try_catch.
  destruct (msg_type m) as [tag|]; [|exists []; split; reflexivity].
  destruct (String.eqb tag "session.created");
    [exists []; split; reflexivity|].
  destruct (String.eqb tag "session.updated");
    [exists []; split; reflexivity|].
  cbn [orb].
  destruct (String.eqb tag "response.audio.delta").
  { unfold bind, get. rewrite Hmode.
    destruct (msg_delta m) as [delta|]; [|exists []; split; reflexivity].
    unfold truthy.
    destruct (String.eqb delta EmptyString); cbn [negb];
      [exists []; split; reflexivity|].
    destruct (Base64.base64ToArrayBuffer delta) as [audioData|].
    - exists [EvAudio audioData]. split; reflexivity.
    - exists []. split; reflexivity. }
  destruct (String.eqb tag "response.text.delta").
  { exists [EvContent (mkContent (or_else (msg_text m) (msg_delta m)))].
    split; reflexivity. }
  destruct (String.eqb tag "response.text.done").
  { exists [EvContent (mkContent (or_else (msg_text m) (msg_delta m)))].
    split; reflexivity. }
  cbn [orb].
  destruct (String.eqb tag "response.done");
    [exists [EvTurnComplete]; split; reflexivity|].
  destruct (String.eqb tag "response.cancelled");
    [exists [EvInterrupted]; split; reflexivity|].
  destruct (String.eqb tag "error");
    [exists [EvError (error_message (msg_error m))]; split; reflexivity|].
  exists []. split; reflexivity.
Qed.

Lemma onmessage_mapping_witness :
  exists events,
    onmessage (mkServerMessage (Some "response.audio.delta") (Some "AQL/fw==")
                 None None) socket_client
      = (Some tt, socket_client, map Emit events)
    /\ events = [EvAudio [x01; x02; xff; x7f]].
Proof.
  destruct (onmessage_mapping socket_client
              (mkServerMessage (Some "response.audio.delta") (Some "AQL/fw==")
                 None None) eq_refl) as [events [E Hev]].
  exists events. split; [exact E | exact Hev].
Defined.

(** C7 as stated fails: a [response.audio.delta] message whose [delta] is
    missing, or is the empty text, is handled without any [audio] event. *)
Lemma audio_delta_without_payload :
  Spec.inbound_mapping "response.audio.delta" = Spec.AsAudio
  /\ onmessage (mkServerMessage (Some "response.audio.delta") None None None)
       socket_client = (Some tt, socket_client, [])
  /\ onmessage (mkServerMessage (Some "response.audio.delta") (Some EmptyString) None None)
       socket_client = (Some tt, socket_client, []).
Proof. repeat split. Qed.

Example text_done_is_content :
  onmessage (mkServerMessage (Some "response.text.done") None (Some "hi") None)
    socket_client
  = (Some tt, socket_client, [Emit (EvContent (mkContent (Some "hi")))]).
Proof. reflexivity. Qed.

Example server_error_is_error :
  onmessage (mkServerMessage (Some "error") None None
               (Some (mkErrorBody (Some "rate limited")))) socket_client
  = (Some tt, socket_client, [Emit (EvError "rate limited")]).
Proof. reflexivity. Qed.

Example unmapped_tag_dropped :
  onmessage (mkServerMessage (Some "rate_limits.updated") None None None)
    socket_client
  = (Some tt, socket_client, []).
Proof. reflexivity. Qed.

End Inbound.

(* ================================================================== *)
(** * The media-track handshake                                        *)
(* ================================================================== *)

Section Handshake.

Import OpenAIRealtimeClient Samples.

Lemma add_tracks_run (n : nat) (c : OpenAIRealtimeClient.t) :
  add_tracks n c = (Some tt, c, repeat AddTrack n).
Proof.
  induction n as [|n IH]; [reflexivity|].
  cbn [add_tracks repeat]. unfold bind, perform. now rewrite IH.
Qed.

(** A refused or missing microphone never fails the attempt. *)
Lemma attach_microphone_run (env : RtcEnv) (c : OpenAIRealtimeClient.t) :
  attach_microphone env c =
  (Some tt, c,
   GetUserMedia :: match microphone env with
                   | Some tracks => repeat AddTrack tracks
                   | None => []
                   end).
Proof.
  unfold attach_microphone, try_catch, bind, perform.
  destruct (microphone env) as [tracks|]; [|reflexivity].
  now rewrite add_tracks_run.
Qed.

(** C1 (as amended).  A connect attempt in media-track mode from
    [disconnected] returns [false] and ends [disconnected] exactly when a
    step after credential issuance raises (peer connection, data channel,
    offer, local description, signalling exchange, remote description);
    otherwise it returns [true] and ends [connected].  Credential issuance
    itself never fails the attempt: the adapter falls back to its API key
    and goes on, and a refused microphone is skipped in the same way. *)
Theorem connect_webrtc_outcome
  (env : ConnectEnv) (model : string) (config : Config)
  (c : OpenAIRealtimeClient.t) :
  connectionType c = webrtc ->
  _status c = disconnected ->
  exists c' tr,
    connect env model config c = (Some (negb (handshake_fails (rtc env))), c', tr)
    /\ _status c' = (if handshake_fails (rtc env) then disconnected else connected).
Proof.
  destruct c as [w p d a key mode st cfg]. cbn [connectionType _status].
  intros -> ->.
  destruct env as [[cred pc_ok mic dc_ok off local_ok sig remote_ok] sock].
  unfold connect, connectWebRTC, getEphemeralKey, handshake_fails.
  cbn [rtc credential peer_connection_ok data_channel_ok offer
       local_description_ok signalling remote_description_ok].
  unfold bind at 1. cbn [get _status connectionType].
  unfold bind at 1. cbn [modify set_status].
  unfold try_catch at 1 2.
  repeat (unfold bind at 1; cbn -[attach_microphone]).
  destruct cred as [value|], pc_ok; cbn -[attach_microphone];
    try (eexists; eexists; split; reflexivity).
  all: rewrite attach_microphone_run.
  all: destruct dc_ok, off as [sdp|], local_ok, sig as [ | ? | [answer|]], remote_ok;
    cbn; eexists; eexists; split; reflexivity.
Qed.

Lemma connect_webrtc_outcome_witness :
  exists c' tr,
    connect (env_of rtc_call_rejected) "gpt-realtime" sample_config
      (new "sk-test" webrtc) = (Some false, c', tr)
    /\ _status c' = disconnected.
Proof.
  exact (connect_webrtc_outcome (env_of rtc_call_rejected) "gpt-realtime"
           sample_config (new "sk-test" webrtc) eq_refl eq_refl).
Defined.

(** C1 as stated fails: when credential issuance fails and every later step
    succeeds, the attempt goes on with the API key as bearer, returns
    [true] and ends [connected]. *)
Lemma credential_failure_still_connects :
  credential rtc_no_credential = None
  /\ exists c',
      connect (env_of rtc_no_credential) "gpt-realtime" sample_config
        (new "sk-test" webrtc)
      = (Some true, c',
         [FetchClientSecrets "sk-test" (client_secrets_body "gpt-realtime" sample_config);
          NewPeerConnection; CreateAudioElement; GetUserMedia; AddTrack;
          CreateDataChannel "oai-events"; CreateOffer; SetLocalDescription;
          FetchCall "https://api.openai.com/v1/realtime/calls?model=gpt-realtime"
                    "sk-test" "v=0 offer";
          SetRemoteDescription "v=0 answer"; Emit EvOpen])
      /\ _status c' = connected.
Proof. split; [reflexivity|]. eexists. split; reflexivity. Qed.

(** What a failed attempt leaves behind when the call endpoint rejects the
    offer: no event at all, and the peer connection, the data channel and
    the audio element still held and never closed. *)
Example rejected_call_is_silent :
  exists c' tr,
    connect (env_of rtc_call_rejected) "gpt-realtime" sample_config
      (new "sk-test" webrtc) = (Some false, c', tr)
    /\ emitted tr = []
    /\ filter is_teardown tr = []
    /\ pc c' = Some handle
    /\ dc c' = Some CONNECTING
    /\ audioElement c' = Some handle.
Proof. eexists. eexists. repeat split. Qed.

(** No failed attempt in media-track mode emits an event or releases a
    resource. *)
Lemma failed_webrtc_connect_emits_nothing
  (env : ConnectEnv) (model : string) (config : Config)
  (c c' : OpenAIRealtimeClient.t) (tr : Trace) :
  connectionType c = webrtc ->
  connect env model config c = (Some false, c', tr) ->
  emitted tr = [] /\ filter is_teardown tr = [].
Proof.
  destruct c as [w p d a key mode st cfg]. cbn [connectionType].
  intros ->.
  destruct env as [[cred pc_ok mic dc_ok off local_ok sig remote_ok] sock].
  unfold connect, connectWebRTC, getEphemeralKey.
  cbn [rtc credential peer_connection_ok data_channel_ok offer
       local_description_ok signalling remote_description_ok].
  unfold bind at 1. cbn [get _status connectionType].
  destruct st; cbn [ret]; try (intro E; inversion E; split; reflexivity).
  unfold bind at 1. cbn [modify set_status].
  unfold try_catch at 1 2.
  repeat (unfold bind at 1; cbn -[attach_microphone]).
  destruct cred as [value|], pc_ok; cbn -[attach_microphone];
    try (intro E; inversion E; split; reflexivity).
  all: rewrite attach_microphone_run.
  all: destruct dc_ok, off as [sdp|], local_ok, sig as [ | ? | [answer|]], remote_ok;
    cbn; try discriminate; intro E; inversion E; subst;
    destruct mic as [tracks|]; cbn; split; try reflexivity;
    try (induction tracks; cbn; auto).
Qed.

(** On the unified session object the same failed attempt leaves [_status]
    at [connecting]: the adapter returned [false] without raising, so the
    [catch] that resets the status is not reached, and no [close] event was
    forwarded. *)
Example unified_failed_connect_stays_connecting :
  exists u tr,
    @UnifiedLiveClient.connect GeminiClient.t GeminiClient_adapter
      (GeminiClient.LiveRejected "unused") (env_of rtc_call_rejected) "gpt-realtime" sample_config
      (UnifiedLiveClient.mk (Some gemini_connecting)
         (Some (new "sk-test" webrtc)) openai disconnected)
    = (Some false, u, tr)
    /\ UnifiedLiveClient._status u = connecting
    /\ emitted tr = [].
Proof. eexists. eexists. repeat split. Qed.

End Handshake.

(* ================================================================== *)
(** * The playback queue and the [interrupted] event                   *)
(* ================================================================== *)

Section Playback.

Import AppAudio Samples.

Lemma started_app (t1 t2 : Trace) : started (t1 ++ t2) = started t1 ++ started t2.
Proof.
  induction t1 as [|e t1 IH]; [reflexivity|].
  destruct e; cbn [app started]; rewrite IH; reflexivity.
Qed.

Lemma enqueued_cons (o : Occurrence) (os : list Occurrence) :
  enqueued (o :: os) = enqueued [o] ++ enqueued os.
Proof. destruct o as [[]|]; reflexivity. Qed.

(** [AudioStreamer.stop] itself does what barge-in needs: whatever was
    queued is gone and nothing is started. *)
Lemma stop_empties_queue (s : AudioStreamer.t) :
  AudioStreamer.stop s
  = (Some tt, AudioStreamer.mk [] false (AudioStreamer.sampleRate s), []).
Proof. reflexivity. Qed.

(** But no listener of the application calls it: an [interrupted] event
    leaves the streamer, and so the queue, exactly as it was. *)
Lemma interrupted_is_not_heard (r : AppAudio.t) :
  deliver EvInterrupted r = (Some tt, r, []).
Proof. reflexivity. Qed.

(** C4 (the code at the failing input).  In the application that uses the
    [AudioStreamer] of audio-utils.ts, three buffers arrive and the first
    one starts at once; [interrupted] is then delivered and changes nothing:
    the two other buffers are still queued, and both are started as the
    sources before them end. *)
Theorem interrupted_does_not_clear_queue :
  exists r1 tr1 r2 tr2,
    run [Delivered (EvAudio pcm_a); Delivered (EvAudio pcm_b);
         Delivered (EvAudio pcm_c)] (Some AudioStreamer.new)
      = (Some tt, r1, tr1)
    /\ started tr1 = [AudioStreamer.pcm16ToFloat32 pcm_a]
    /\ queued r1 = [AudioStreamer.pcm16ToFloat32 pcm_b;
                    AudioStreamer.pcm16ToFloat32 pcm_c]
    /\ deliver EvInterrupted r1 = (Some tt, r1, [])
    /\ run [SourceEnded; SourceEnded] r1 = (Some tt, r2, tr2)
    /\ started tr2 = [AudioStreamer.pcm16ToFloat32 pcm_b;
                      AudioStreamer.pcm16ToFloat32 pcm_c]
    /\ queued r2 = [].
Proof. do 4 eexists. repeat split. Qed.

Example pcm16_samples :
  AudioStreamer.pcm16ToFloat32 pcm_b = [Qmake 32767 32768; Qmake (-32768) 32768].
Proof. reflexivity. Qed.

End Playback.

(* ================================================================== *)
(** * Capture, batching and the end of a turn                          *)
(* ================================================================== *)

Section Recording.

Import App Samples.

Lemma bind_run {S A B} (m : M S A) (k : A -> M S B)
  (s s1 s2 : S) (a : A) (r : option B) (t1 t2 : Trace) :
  m s = (Some a, s1, t1) -> k a s1 = (r, s2, t2) ->
  bind m k s = (r, s2, t1 ++ t2).
Proof. intros E1 E2. unfold bind. now rewrite E1, E2. Qed.

Lemma session_calls_app (t1 t2 : Trace) :
  session_calls (t1 ++ t2) = session_calls t1 ++ session_calls t2.
Proof. apply filter_app. Qed.

(** The loop hands every chunk to the session, in order, whether or not a
    send throws, and leaves the client's fields alone. *)
Lemma send_chunks_run (s : GeminiClient.Session) (chunks : list Media) :
  forall (sent : nat) (g : GeminiClient.t),
  exists sent' tr,
    GeminiClient.send_chunks s chunks sent g = (Some sent', g, tr)
    /\ session_calls tr = map SessionSendRealtimeInput chunks.
Proof.
  induction chunks as [|chunk rest IH]; intros sent g.
  - exists sent, []. split; reflexivity.
  - cbn [GeminiClient.send_chunks].
    destruct (GeminiClient.realtime_input_error s chunk) as [msg|] eqn:Herr.
    + destruct (IH sent g) as (n & tr & E & Hcalls).
      eexists. eexists. split.
      * eapply bind_run; [|exact E].
        unfold try_catch, bind, perform, ret, throw. reflexivity.
      * rewrite session_calls_app, Hcalls. reflexivity.
    + destruct (IH (S sent) g) as (n & tr & E & Hcalls).
      eexists. eexists. split.
      * eapply bind_run; [|exact E].
        unfold try_catch, bind, perform, ret, throw. reflexivity.
      * rewrite session_calls_app, Hcalls. reflexivity.
Qed.

Lemma sendRealtimeInput_run (g : GeminiClient.t) (s : GeminiClient.Session)
  (chunks : list Media) :
  GeminiClient.session g = Some s ->
  exists tr,
    GeminiClient.sendRealtimeInput chunks g = (Some tt, g, tr)
    /\ session_calls tr = map SessionSendRealtimeInput chunks.
Proof.
  intro Hs. unfold GeminiClient.sendRealtimeInput.
  destruct (send_chunks_run s chunks 0 g) as (n & tr & E & Hcalls).
  destruct (0 <? n)%nat eqn:Hn.
  - exists (tr ++ [Emit (EvLog (LogSentChunks n))]). split.
    + unfold bind at 1. cbn [get]. rewrite Hs. cbn [app].
      erewrite bind_run; [reflexivity | exact E |].
      rewrite Hn. reflexivity.
    + rewrite session_calls_app, Hcalls. cbn. now rewrite app_nil_r.
  - exists (tr ++ []). split.
    + unfold bind at 1. cbn [get]. rewrite Hs. cbn [app].
      erewrite bind_run; [reflexivity | exact E |].
      rewrite Hn. reflexivity.
    + rewrite session_calls_app, Hcalls. cbn. now rewrite app_nil_r.
Qed.

Lemma endTurn_run (g : GeminiClient.t) (s : GeminiClient.Session) :
  GeminiClient.session g = Some s ->
  exists tr,
    GeminiClient.endTurn g = (Some tt, g, tr)
    /\ session_calls tr = [SessionSendClientContent [] true].
Proof.
  intro Hs. unfold GeminiClient.endTurn, bind at 1. cbn [get]. rewrite Hs.
  destruct (GeminiClient.client_content_error s) as [msg|];
    eexists; split; reflexivity.
Qed.

Lemma on_gemini_run {A} (m : M GeminiClient.t A) (a : App.t)
  (g : GeminiClient.t) (x : A) (tr : Trace) :
  geminiClientRef a = Some g ->
  m g = (Some x, g, tr) ->
  on_gemini m a = (Some tt, a, tr).
Proof.
  intros Hg Em. unfold on_gemini, optional_call. rewrite Hg, Em.
  destruct a; cbn in *. now subst.
Qed.

(** The batching branch of [stopRecording], when it is taken: with chunks
    left in the buffer and a live session, every chunk is handed to the
    session in capture order, then one [turnComplete] follows, and the
    buffer is left empty; each chunk decodes to the captured bytes. *)
Lemma stopRecording_flushes_then_ends_turn
  (a : App.t) (id : nat) (g : GeminiClient.t) (s : GeminiClient.Session) :
  sendIntervalRef a = Some id ->
  selectedModel a = gemini ->
  geminiClientRef a = Some g ->
  GeminiClient.session g = Some s ->
  audioChunkBufferRef a <> [] ->
  exists a' tr,
    stopRecording a = (Some tt, a', tr)
    /\ session_calls tr
       = map SessionSendRealtimeInput (to_chunks (audioChunkBufferRef a))
         ++ [SessionSendClientContent [] true]
    /\ audioChunkBufferRef a' = []
    /\ sendIntervalRef a' = None
    /\ map (fun b => Base64.base64ToArrayBuffer (Base64.arrayBufferToBase64 b))
           (audioChunkBufferRef a)
       = map Some (audioChunkBufferRef a).
Proof.
  intros Hid Hmodel Hg Hs Hbuf.
  destruct (sendRealtimeInput_run g s (to_chunks (audioChunkBufferRef a)) Hs)
    as (t1 & E1 & C1).
  destruct (endTurn_run g s Hs) as (t2 & E2 & C2).
  destruct a as [model ic ir gref oref rs buf iv]. cbn in Hid, Hmodel, Hg, Hbuf.
  subst model gref iv.
  cbn [audioChunkBufferRef] in *.
  destruct buf as [|b0 bs]; [contradiction|].
  eexists. eexists. split; [|split; [|split; [|split]]].
  - unfold stopRecording.
    eapply bind_run; [reflexivity|]. cbn [sendIntervalRef selectedModel].
    eapply bind_run.
    + eapply bind_run; [reflexivity|].
      eapply bind_run; [reflexivity|].
      cbn [audioChunkBufferRef List.length Nat.ltb Nat.leb].
      eapply bind_run; [eapply on_gemini_run; [reflexivity | exact E1]|].
      eapply bind_run; [reflexivity|].
      eapply bind_run; [reflexivity|].
      eapply bind_run; [eapply on_gemini_run; [reflexivity | exact E2]|].
      reflexivity.
    + reflexivity.
  - rewrite !session_calls_app. cbn [session_calls filter is_session_call app].
    rewrite C1, C2. cbn [session_calls filter is_session_call app].
    now rewrite !app_nil_r.
  - reflexivity.
  - reflexivity.
  - apply map_ext. intro b. apply decode_encode.
Qed.

(** Nothing that happens while recording puts a frame into the chunk
    buffer: the capture callback sends each frame at once. *)
Lemma record_keeps_buffer (cs : list Capture) :
  forall a : App.t,
  audioChunkBufferRef a = [] ->
  audioChunkBufferRef (snd (fst (record cs a))) = [].
Proof.
  induction cs as [|c cs IH]; intros a Hbuf; [exact Hbuf|].
  assert (Hstep : forall (m : M App.t unit),
             audioChunkBufferRef (snd (fst (m a))) = [] ->
             audioChunkBufferRef (snd (fst (bind m (fun _ => record cs) a))) = []).
  { intros m Hm. unfold bind.
    destruct (m a) as [[[x|] a1] t1]; cbn [fst snd] in *; [|exact Hm].
    specialize (IH a1 Hm).
    destruct (record cs a1) as [[r2 a2] t2]. exact IH. }
  destruct c as [audioData|]; cbn [record]; apply Hstep.
  - unfold on_audio_data, bind at 1. cbn [get].
    destruct (selectedModel a).
    + unfold on_gemini, optional_call.
      destruct (geminiClientRef a) as [g|]; [|exact Hbuf].
      destruct (GeminiClient.sendRealtimeInput _ g) as [[[x|] g'] t'];
        destruct a; exact Hbuf.
    + unfold on_openai, optional_call.
      destruct (openaiClientRef a) as [o|]; [|exact Hbuf].
      destruct (OpenAIRealtimeClient.sendAudio _ o) as [[[x|] o'] t'];
        destruct a; exact Hbuf.
  - unfold interval_tick, bind at 1. cbn [get]. rewrite Hbuf. exact Hbuf.
Qed.

(** With an empty chunk buffer [stopRecording] makes no call on the
    session: nothing is flushed and no [turnComplete] is sent. *)
Lemma stopRecording_empty_buffer (a : App.t) :
  audioChunkBufferRef a = [] ->
  exists a' tr,
    stopRecording a = (Some tt, a', tr) /\ session_calls tr = [].
Proof.
  destruct a as [model ic ir gref oref rs buf iv]. cbn [audioChunkBufferRef].
  intros ->. destruct iv as [id|], model; eexists; eexists; split; reflexivity.
Qed.

(** C5 (the code at the failing input).  A recording session on the Gemini
    path: recording starts, three frames are captured with the batching
    timer firing in between, recording stops.  Each frame went to the
    session as a blob when it was captured; [stopRecording] then clears the
    timer and stops the recorder, but makes no call on the session: no
    [turnComplete] is sent. *)
Theorem stopRecording_sends_no_end_of_turn :
  exists a1 a2 a3 t2,
    startRecording 7 true app_on_gemini
      = (Some tt, a1,
         [AddLog AppStartingRecording; RecorderStart; AddLog AppRecordingStarted])
    /\ sendIntervalRef a1 = Some 7%nat
    /\ record [Frame pcm_a; Frame pcm_b; Tick; Frame pcm_c] a1 = (Some tt, a2, t2)
    /\ session_calls t2
       = [SessionSendRealtimeInput (MediaBlob pcm_a pcm_mime);
          SessionSendRealtimeInput (MediaBlob pcm_b pcm_mime);
          SessionSendRealtimeInput (MediaBlob pcm_c pcm_mime)]
    /\ stopRecording a2
       = (Some tt, a3, [ClearInterval 7; RecorderStop; AddLog AppRecordingStopped])
    /\ sendIntervalRef a3 = None.
Proof. do 4 eexists. repeat split. Qed.

(** When chunks are left in the buffer the flush does come before the end
    of the turn. *)
Example stopRecording_with_tail :
  exists a',
    stopRecording app_with_tail
    = (Some tt, a',
       [ClearInterval 7;
        SessionSendRealtimeInput (MediaInline pcm_mime "AEAAwA==");
        SessionSendRealtimeInput (MediaInline pcm_mime "/38AgA==");
        Emit (EvLog (LogSentChunks 2));
        AddLog (AppSentFinalChunks 2);
        SessionSendClientContent [] true;
        Emit (EvLog LogSentTurnComplete);
        AddLog AppSentTurnComplete;
        RecorderStop;
        AddLog AppRecordingStopped])
    /\ audioChunkBufferRef a' = [].
Proof. eexists. split; reflexivity. Qed.

End Recording.

(* ================================================================== *)
(** * Further properties of the base64 helpers                         *)
(* ================================================================== *)

Section Base64_more.

Import Base64.
Local Open Scope nat_scope.

Lemma btoa_chars_length_formula (l : list ascii) :
  List.length (btoa_chars l) = 4 * ((List.length l + 2) / 3).
Proof.
  induction l as [| a | a b | a b c l IH] using list_ind3; try reflexivity.
  cbn [btoa_chars List.length]. cbv zeta. cbn [List.length]. rewrite IH.
  replace (S (S (S (List.length l))) + 2) with (List.length l + 2 + 1 * 3) by lia.
  rewrite Nat.div_add by discriminate. lia.
Qed.

Lemma length_string_of_chars (l : list ascii) :
  String.length (string_of_list_ascii l) = List.length l.
Proof. induction l as [|c l IH]; cbn; [reflexivity | now rewrite IH]. Qed.

Lemma length_chars_of_binary (bytes : list byte) :
  List.length (list_ascii_of_string (binary_of_bytes bytes)) = List.length bytes.
Proof. induction bytes as [|x l IH]; cbn; [reflexivity | now rewrite IH]. Qed.

(** X1.  The base64 text of a buffer of [n] bytes has [4 * ceil(n / 3)]
    characters. *)
Theorem arrayBufferToBase64_length (buffer : list byte) :
  String.length (arrayBufferToBase64 buffer)
  = 4 * ((List.length buffer + 2) / 3).
Proof.
  unfold arrayBufferToBase64, btoa.
  now rewrite length_string_of_chars, btoa_chars_length_formula,
    length_chars_of_binary.
Qed.

(** The base64 text of a non-empty buffer is not the empty string. *)
Lemma arrayBufferToBase64_nonempty (buffer : list byte) :
  buffer <> [] ->
  String.eqb (arrayBufferToBase64 buffer) EmptyString = false.
Proof.
  intro Hne. destruct buffer as [|x [|y [|z rest]]]; [contradiction| | |];
    reflexivity.
Qed.

End Base64_more.

(* ================================================================== *)
(** * Further properties of [GeminiClient]                             *)
(* ================================================================== *)

Section Gemini_more.

Import Samples.
Local Open Scope nat_scope.

Lemma emitted_app (t1 t2 : Trace) : emitted (t1 ++ t2) = emitted t1 ++ emitted t2.
Proof.
  induction t1 as [|e t1 IH]; [reflexivity|].
  destruct e; cbn [app emitted]; rewrite IH; reflexivity.
Qed.

(** X3.  A connect attempt from [disconnected] asks the SDK for a session once.
    When that is refused the attempt returns [false], the status is
    [disconnected] again, the session field is untouched and exactly one
    [error] event carries the refusal; when it is granted the attempt
    returns [true], stores the session and emits no [error]. *)
Theorem gemini_connect_outcome
  (env : GeminiClient.LiveOutcome) (model : string) (config : Config)
  (g : GeminiClient.t) :
  GeminiClient._status g = disconnected ->
  exists g' tr,
    GeminiClient.connect env model config g
      = (Some (match env with
               | GeminiClient.LiveResolved _ _ => true
               | GeminiClient.LiveRejected _ => false
               end), g', tr)
    /\ filter is_network tr = [LiveConnect model]
    /\ match env with
       | GeminiClient.LiveResolved s opened =>
           GeminiClient.session g' = Some s
           /\ GeminiClient._status g' = (if opened then connected else connecting)
           /\ filter is_error (emitted tr) = []
       | GeminiClient.LiveRejected message =>
           GeminiClient.session g' = GeminiClient.session g
           /\ GeminiClient._status g' = disconnected
           /\ filter is_error (emitted tr) = [EvError message]
       end.
Proof.
  destruct g as [s0 st]. cbn [GeminiClient._status]. intros ->.
  destruct env as [s [|] | message]; eexists; eexists;
    (split; [reflexivity | split; [reflexivity | repeat split]]).
Qed.

Lemma gemini_connect_outcome_witness :
  exists g' tr,
    GeminiClient.connect (GeminiClient.LiveRejected "quota") "gemini-live"
      sample_config (GeminiClient.mk None disconnected) = (Some false, g', tr)
    /\ filter is_error (emitted tr) = [EvError "quota"].
Proof.
  destruct (gemini_connect_outcome (GeminiClient.LiveRejected "quota")
              "gemini-live" sample_config (GeminiClient.mk None disconnected)
              eq_refl) as (g' & tr & E & _ & _ & _ & Herr).
  exists g', tr. split; [exact E | exact Herr].
Defined.

(** X4.  After [disconnect], whatever the state before it, nothing reaches a
    session any more: [sendRealtimeInput] and [endTurn] only log "No
    active session", raise nothing and change no field. *)
Theorem gemini_sends_dropped_after_disconnect
  (g : GeminiClient.t) (chunks : list Media) :
  exists r g1 t1,
    GeminiClient.disconnect g = (Some r, g1, t1)
    /\ GeminiClient.sendRealtimeInput chunks g1
       = (Some tt, g1, [Emit (EvLog LogNoActiveSession)])
    /\ GeminiClient.endTurn g1
       = (Some tt, g1, [Emit (EvLog LogNoActiveSession)]).
Proof.
  destruct g as [[s|] st]; do 3 eexists; repeat split.
Qed.

Lemma send_chunks_report (s : GeminiClient.Session) (chunks : list Media) :
  forall (sent : nat) (g : GeminiClient.t),
  exists tr,
    GeminiClient.send_chunks s chunks sent g
      = (Some (sent + accepted s chunks), g, tr)
    /\ emitted tr = send_reports s chunks
    /\ session_calls tr = map SessionSendRealtimeInput chunks.
Proof.
  induction chunks as [|chunk rest IH]; intros sent g.
  - exists []. unfold accepted. cbn. rewrite Nat.add_0_r. repeat split.
  - cbn [GeminiClient.send_chunks]. unfold accepted, send_reports.
    cbn [filter flat_map map].
    destruct (GeminiClient.realtime_input_error s chunk) as [msg|] eqn:Herr.
    + destruct (IH sent g) as (tr & E & Hem & Hcalls).
      eexists. split; [|split].
      * eapply bind_run; [|exact E].
        unfold try_catch, bind, perform, ret, throw. reflexivity.
      * rewrite emitted_app, Hem. reflexivity.
      * rewrite session_calls_app, Hcalls. reflexivity.
    + destruct (IH (S sent) g) as (tr & E & Hem & Hcalls).
      eexists. split; [|split].
      * eapply bind_run.
        -- unfold try_catch, bind, perform, ret, throw. reflexivity.
        -- cbn [List.length]. rewrite <- Nat.add_succ_comm. exact E.
      * rewrite emitted_app, Hem. reflexivity.
      * rewrite session_calls_app, Hcalls. reflexivity.
Qed.

(** X5.  With a session, [sendRealtimeInput] hands every chunk of the batch to
    the session in order and never raises: a chunk whose send throws is
    reported by one [log] and one [error] event and the chunks after it are
    still sent; a final [log] counts the chunks that went through, and is
    omitted when none did. *)
Theorem gemini_sendRealtimeInput_report
  (g : GeminiClient.t) (s : GeminiClient.Session) (chunks : list Media) :
  GeminiClient.session g = Some s ->
  exists tr,
    GeminiClient.sendRealtimeInput chunks g = (Some tt, g, tr)
    /\ session_calls tr = map SessionSendRealtimeInput chunks
    /\ emitted tr
       = send_reports s chunks
         ++ (if (0 <? accepted s chunks)%nat
             then [EvLog (LogSentChunks (accepted s chunks))] else []).
Proof.
  intro Hs. unfold GeminiClient.sendRealtimeInput.
  destruct (send_chunks_report s chunks 0 g) as (tr & E & Hem & Hcalls).
  cbn [Nat.add] in E.
  destruct (0 <? accepted s chunks)%nat eqn:Hn.
  - exists (tr ++ [Emit (EvLog (LogSentChunks (accepted s chunks)))]). split; [|split].
    + unfold bind at 1. cbn [get]. rewrite Hs. cbn [app].
      erewrite bind_run; [reflexivity | exact E |].
      rewrite Hn. reflexivity.
    + rewrite session_calls_app, Hcalls. cbn. now rewrite app_nil_r.
    + rewrite emitted_app, Hem. reflexivity.
  - exists (tr ++ []). split; [|split].
    + unfold bind at 1. cbn [get]. rewrite Hs. cbn [app].
      erewrite bind_run; [reflexivity | exact E |].
      rewrite Hn. reflexivity.
    + rewrite session_calls_app, Hcalls. cbn. now rewrite app_nil_r.
    + rewrite emitted_app, Hem. reflexivity.
Qed.

Lemma gemini_sendRealtimeInput_report_witness :
  exists tr,
    GeminiClient.sendRealtimeInput
      [MediaInline "audio/pcm;rate=16000" "AEAAwA=="; MediaBlob pcm_b "audio/pcm";
       MediaInline "audio/pcm;rate=16000" "/38AgA=="]
      (GeminiClient.mk (Some flaky_session) connected)
    = (Some tt, GeminiClient.mk (Some flaky_session) connected, tr)
    /\ emitted tr
       = [EvLog (LogSendFailed "blob refused"); EvError "blob refused";
          EvLog (LogSentChunks 2)].
Proof.
  destruct (gemini_sendRealtimeInput_report
              (GeminiClient.mk (Some flaky_session) connected) flaky_session
              [MediaInline "audio/pcm;rate=16000" "AEAAwA==";
               MediaBlob pcm_b "audio/pcm";
               MediaInline "audio/pcm;rate=16000" "/38AgA=="] eq_refl)
    as (tr & E & _ & Hem).
  exists tr. split; [exact E | exact Hem].
Defined.

End Gemini_more.

(* ================================================================== *)
(** * Inbound messages of [GeminiClient]                               *)
(* ================================================================== *)

Section Gemini_inbound.

Import GeminiInbound.
Local Open Scope nat_scope.

Lemma content_of_app (es1 es2 : list Emission) :
  content_of (es1 ++ es2) = content_of es1 ++ content_of es2.
Proof.
  induction es1 as [|e es1 IH]; [reflexivity|].
  destruct e; cbn [app content_of]; rewrite IH; reflexivity.
Qed.

Lemma audio_of_app (es1 es2 : list Emission) :
  audio_of (es1 ++ es2) = audio_of es1 ++ audio_of es2.
Proof.
  induction es1 as [|e es1 IH]; [reflexivity|].
  destruct e; cbn [app audio_of]; rewrite IH; reflexivity.
Qed.

Lemma emit_audio_no_content (audioParts : list Part) :
  content_of (fst (emit_audio audioParts)) = [].
Proof.
  induction audioParts as [|p rest IH]; [reflexivity|].
  cbn [emit_audio]. destruct (payload p) as [d|]; [|exact IH].
  destruct (Base64.base64ToArrayBuffer d) as [bytes|]; [|reflexivity].
  destruct (emit_audio rest) as [es raised]. exact IH.
Qed.

(** X6.  A message gives at most one [content] event.  When it gives one, the
    event carries at least one part, none of its parts is an [audio/pcm]
    part, and no exception escaped; in particular a message one of whose
    audio parts is not base64 gives no [content] event at all, whatever
    text it carries. *)
Theorem gemini_content_event (message : LiveServerMessage) :
  match content_of (fst (handleMessage message)) with
  | [] => True
  | [otherParts] =>
      otherParts <> []
      /\ Forall (fun p => is_audio p = false) otherParts
      /\ snd (handleMessage message) = false
  | _ :: _ :: _ => False
  end.
Proof.
  unfold handleMessage.
  destruct (setupComplete message); [exact I|].
  destruct (serverContent message) as [sc|]; [|exact I].
  destruct (interrupted sc); [exact I|].
  destruct (turnComplete sc); [exact I|].
  destruct (modelTurn sc) as [turn|]; [|exact I].
  remember (match parts turn with Some l => l | None => [] end) as ps eqn:Hps.
  clear Hps.
  pose proof (emit_audio_no_content (filter is_audio ps)) as Hno.
  destruct (emit_audio (filter is_audio ps)) as [es [|]]; cbn [fst] in Hno.
  - cbn [fst]. now rewrite Hno.
  - assert (Hother : Forall (fun p => is_audio p = false)
                            (filter (fun p => negb (is_audio p)) ps)).
    { apply Forall_forall. intros p Hp. apply filter_In in Hp.
      destruct Hp as [_ Hp]. now apply negb_true_iff in Hp. }
    destruct (filter (fun p => negb (is_audio p)) ps) as [|q qs].
    + cbn [List.length Nat.ltb Nat.leb fst]. now rewrite Hno.
    + cbn [List.length Nat.ltb Nat.leb].
      destruct (List.length (filter has_text (q :: qs))) as [|n];
        cbn [Nat.ltb Nat.leb fst snd]; rewrite content_of_app, Hno;
        cbn [app content_of]; (split; [discriminate | split; [exact Hother | reflexivity]]).
Qed.

Lemma emit_audio_of_buffers (buffers : list (list byte)) :
  Forall (fun b => b <> []) buffers ->
  exists es,
    emit_audio (map audio_part buffers) = (es, false)
    /\ audio_of es = buffers.
Proof.
  induction 1 as [|b rest Hb _ (es & E & Ha)].
  - exists []. split; reflexivity.
  - cbn [map emit_audio]. unfold payload, audio_part at 1.
    cbn [inlineData data].
    rewrite (arrayBufferToBase64_nonempty _ Hb), decode_encode, E.
    eexists. split; [reflexivity|]. cbn [audio_of]. now rewrite Ha.
Qed.

Lemma filter_audio_parts (buffers : list (list byte)) :
  filter is_audio (map audio_part buffers) = map audio_part buffers
  /\ filter (fun p => negb (is_audio p)) (map audio_part buffers) = [].
Proof.
  induction buffers as [|b rest [IH1 IH2]]; [split; reflexivity|].
  cbn [map filter].
  change (is_audio (audio_part b)) with true. cbn [negb].
  now rewrite IH1, IH2.
Qed.

(** X7.  A model turn made of inline [audio/pcm] parts, each carrying the base64
    text of a non-empty buffer, is delivered as one [audio] event per
    part, with the original bytes and in the order of the parts; it gives no
    [content] event and raises nothing. *)
Theorem gemini_audio_turn_delivered (buffers : list (list byte)) :
  Forall (fun b => b <> []) buffers ->
  exists es,
    handleMessage (model_turn (map audio_part buffers)) = (es, false)
    /\ audio_of es = buffers
    /\ content_of es = [].
Proof.
  intro Hne. destruct (emit_audio_of_buffers buffers Hne) as (es & E & Ha).
  destruct (filter_audio_parts buffers) as [F1 F2].
  exists es. unfold handleMessage, model_turn.
  cbn [setupComplete serverContent interrupted turnComplete modelTurn parts].
  rewrite F1, F2, E. cbn [List.length Nat.ltb Nat.leb].
  split; [reflexivity|]. split; [exact Ha|].
  pose proof (emit_audio_no_content (map audio_part buffers)) as Hno.
  now rewrite E in Hno.
Qed.

Lemma gemini_audio_turn_delivered_witness :
  exists es,
    handleMessage (model_turn (map audio_part [Samples.pcm_a; Samples.pcm_b]))
      = (es, false)
    /\ audio_of es = [Samples.pcm_a; Samples.pcm_b]
    /\ content_of es = [].
Proof.
  apply gemini_audio_turn_delivered.
  repeat constructor; discriminate.
Defined.

(** An audio part that is not base64 raises out of [handleMessage]: the
    parts after it are not delivered and the text of the same message is
    lost. *)
Example gemini_bad_audio_part :
  handleMessage
    (model_turn [audio_part Samples.pcm_a;
                 mkPart (Some (mkInlineData (Some "audio/pcm") (Some "%%%"))) None;
                 audio_part Samples.pcm_b;
                 mkPart None (Some "hello")])
  = ([EmAudio Samples.pcm_a; EmLog (LogReceivedAudio 4)], true).
Proof. reflexivity. Qed.

(** [interrupted] takes precedence over the parts of the same message. *)
Example gemini_interrupted_first :
  handleMessage
    (mkLiveServerMessage false
       (Some (mkServerContent true true
                (Some (mkModelTurn (Some [audio_part Samples.pcm_a]))))))
  = ([EmLog LogResponseInterrupted; EmInterrupted], false).
Proof. reflexivity. Qed.

End Gemini_inbound.

(* ================================================================== *)
(** * Further properties of [OpenAIRealtimeClient]                     *)
(* ================================================================== *)

Section OpenAI_more.

Import OpenAIRealtimeClient Samples.
Local Open Scope nat_scope.







(** X11.  What one message-stream adapter sends with [sendAudio], another
    receives as the same bytes: a [response.audio.delta] message carrying
    the base64 text of a non-empty buffer is forwarded as one [audio] event
    with that buffer. *)
Theorem audio_delta_carries_buffer (c : OpenAIRealtimeClient.t) (buffer : list byte) :
  connectionType c = websocket ->
  buffer <> [] ->
  onmessage (mkServerMessage (Some "response.audio.delta")
               (Some (Base64.arrayBufferToBase64 buffer)) None None) c
  = (Some tt, c, [Emit (EvAudio buffer)]).
Proof.
  intros Hmode Hne. unfold onmessage, handleMessage, try_catch.
  cbn [msg_type msg_delta String.eqb Ascii.eqb Bool.eqb orb].
  unfold bind, get. rewrite Hmode. unfold truthy.
  rewrite (arrayBufferToBase64_nonempty _ Hne). cbn [negb].
  rewrite decode_encode. reflexivity.
Qed.

Lemma audio_delta_carries_buffer_witness :
  onmessage (mkServerMessage (Some "response.audio.delta")
               (Some (Base64.arrayBufferToBase64 pcm_b)) None None) socket_client
  = (Some tt, socket_client, [Emit (EvAudio pcm_b)]).
Proof.
  apply audio_delta_carries_buffer; [reflexivity | discriminate].
Defined.

End OpenAI_more.

(* ================================================================== *)
(** * After the handshake; the unified session object                  *)
(* ================================================================== *)

Section After_handshake.

Import OpenAIRealtimeClient Samples.
Local Open Scope nat_scope.

Lemma forward_status_tracks (n : nat) (t : Trace) (st : Status) :
  UnifiedLiveClient.forward_status (repeat AddTrack n ++ t) st
  = UnifiedLiveClient.forward_status t st.
Proof. induction n as [|n IH]; [reflexivity | exact IH]. Qed.

(** The attempt in media-track mode, with what it leaves in the fields. *)
Lemma connect_webrtc_run
  (env : ConnectEnv) (model : string) (config : Config)
  (c : OpenAIRealtimeClient.t) :
  connectionType c = webrtc ->
  _status c = disconnected ->
  exists c' tr,
    connect env model config c = (Some (negb (handshake_fails (rtc env))), c', tr)
    /\ _status c' = (if handshake_fails (rtc env) then disconnected else connected)
    /\ connectionType c' = webrtc
    /\ (forall st, UnifiedLiveClient.forward_status tr st
                   = if handshake_fails (rtc env) then st else connected)
    /\ (handshake_fails (rtc env) = false ->
        initialConfig c' = Some config /\ dc c' = Some CONNECTING
        /\ pc c' = Some handle)
    /\ (exists rest,
          tr = FetchClientSecrets (apiKey c) (client_secrets_body model config)
               :: rest).
Proof.
  destruct c as [w p d a key mode st cfg]. cbn [connectionType _status apiKey].
  intros -> ->.
  destruct env as [[cred pc_ok mic dc_ok off local_ok sig remote_ok] sock].
  unfold connect, connectWebRTC, getEphemeralKey, handshake_fails.
  cbn [rtc credential peer_connection_ok data_channel_ok offer
       local_description_ok signalling remote_description_ok].
  unfold bind at 1. cbn [get _status connectionType].
  unfold bind at 1. cbn [modify set_status].
  unfold try_catch at 1 2.
  repeat (unfold bind at 1; cbn -[attach_microphone]).
  destruct cred as [value|], pc_ok; cbn -[attach_microphone];
    try (eexists; eexists; repeat split; try discriminate; eexists; reflexivity).
  all: rewrite attach_microphone_run.
  all: destruct dc_ok, off as [sdp|], local_ok, sig as [ | ? | [answer|]], remote_ok,
         mic as [tracks|];
    cbn; eexists; eexists;
    (split; [reflexivity|]); (split; [reflexivity|]); (split; [reflexivity|]);
    (split; [intro st0; rewrite <- ?app_assoc; cbn;
             rewrite <- ?app_assoc, ?forward_status_tracks; reflexivity|]);
    (split; [try discriminate; intros _; repeat split | eexists; reflexivity]).
Qed.

(** X12.  Text sent after a successful connect in media-track mode, but before
    the data channel has opened, is dropped without any trace.  Once the
    channel opens, the initial configuration goes out first, and text sent
    from then on travels on the data channel. *)
Theorem text_before_channel_opens_is_dropped
  (env : ConnectEnv) (model : string) (config : Config)
  (c : OpenAIRealtimeClient.t) (text : string) :
  connectionType c = webrtc ->
  _status c = disconnected ->
  handshake_fails (rtc env) = false ->
  exists c1 tr c2,
    connect env model config c = (Some true, c1, tr)
    /\ sendText text c1 = (Some tt, c1, [])
    /\ dc_onopen c1 = (Some tt, c2, [DcSend (session_update_channel config)])
    /\ sendText text c2
       = (Some tt, c2,
          [DcSend (conversation_item_create text); DcSend response_create]).
Proof.
  intros Hmode Hst Hok.
  destruct (connect_webrtc_run env model config c Hmode Hst)
    as (c1 & tr & E & _ & Hmode1 & _ & Hfields & _).
  rewrite Hok in E. destruct (Hfields Hok) as (Hcfg & Hdc & _).
  destruct c1 as [w p d a key mode st cfg].
  cbn [connectionType initialConfig dc] in Hmode1, Hcfg, Hdc. subst mode cfg d.
  do 3 eexists. split; [exact E|]. repeat split.
Qed.

Lemma text_before_channel_opens_is_dropped_witness :
  exists c1 tr c2,
    connect (env_of rtc_all_ok) "gpt-realtime" sample_config (new "sk-test" webrtc)
      = (Some true, c1, tr)
    /\ sendText "hello" c1 = (Some tt, c1, [])
    /\ dc_onopen c1 = (Some tt, c2, [DcSend (session_update_channel sample_config)])
    /\ sendText "hello" c2
       = (Some tt, c2,
          [DcSend (conversation_item_create "hello"); DcSend response_create]).
Proof.
  apply text_before_channel_opens_is_dropped; reflexivity.
Defined.

Context {G : Type} `{LiveAdapter G}.

(** X13.  On the unified session object with the OpenAI adapter in media-track
    mode, a connect attempt from [disconnected] returns what the adapter
    returns.  After a success both status fields are [connected].  After a
    failure the adapter is [disconnected] but the session object stays
    [connecting], so a further [connect] on it is refused without any
    effect. *)
Theorem unified_connect_over_webrtc
  (env_g : adapter_env) (env : ConnectEnv) (model : string) (config : Config)
  (u : UnifiedLiveClient.t G) (o : OpenAIRealtimeClient.t) :
  UnifiedLiveClient._currentProvider u = openai ->
  UnifiedLiveClient.openaiClient u = Some o ->
  UnifiedLiveClient._status u = disconnected ->
  connectionType o = webrtc ->
  _status o = disconnected ->
  exists u' o' tr,
    UnifiedLiveClient.connect env_g env model config u
      = (Some (negb (handshake_fails (rtc env))), u', tr)
    /\ UnifiedLiveClient.openaiClient u' = Some o'
    /\ _status o' = (if handshake_fails (rtc env) then disconnected else connected)
    /\ UnifiedLiveClient._status u'
       = (if handshake_fails (rtc env) then connecting else connected)
    /\ (handshake_fails (rtc env) = true ->
        UnifiedLiveClient.connect env_g env model config u' = (Some false, u', [])).
Proof.
  intros Hp Ho Hst Hmode Hsto.
  destruct (connect_webrtc_run env model config o Hmode Hsto)
    as (o' & tr & E & Hst' & _ & Hfw & _ & _).
  destruct u as [gc oc prov ust].
  cbn [UnifiedLiveClient._currentProvider UnifiedLiveClient.openaiClient
       UnifiedLiveClient._status] in Hp, Ho, Hst. subst prov oc ust.
  exists (UnifiedLiveClient.mk gc (Some o') openai
            (if handshake_fails (rtc env) then connecting else connected)),
         o', tr.
  split; [|split; [reflexivity | split; [exact Hst' | split; [reflexivity|]]]].
  - unfold UnifiedLiveClient.connect, bind, get, modify, try_catch,
      UnifiedLiveClient.on_adapter.
    cbn [UnifiedLiveClient._status UnifiedLiveClient._currentProvider
         UnifiedLiveClient.openaiClient UnifiedLiveClient.set_status
         UnifiedLiveClient.set_openaiClient UnifiedLiveClient.geminiClient].
    rewrite E. cbn [negb]. rewrite (Hfw connecting).
    destruct (handshake_fails (rtc env)); reflexivity.
  - intros ->. reflexivity.
Qed.

(** X14.  [disconnect] on the unified session object with the OpenAI adapter
    active always succeeds: it returns [true], leaves both status fields
    [disconnected] and no transport handle held, whatever the state before;
    the [connecting] state left by a failed attempt is cleared this way. *)
Theorem unified_disconnect_over_openai
  (u : UnifiedLiveClient.t G) (o : OpenAIRealtimeClient.t) :
  UnifiedLiveClient._currentProvider u = openai ->
  UnifiedLiveClient.openaiClient u = Some o ->
  exists u' o' tr,
    UnifiedLiveClient.disconnect u = (Some true, u', tr)
    /\ UnifiedLiveClient._status u' = disconnected
    /\ UnifiedLiveClient.openaiClient u' = Some o'
    /\ _status o' = disconnected
    /\ (pc o', dc o', ws o', audioElement o') = (None, None, None, None)
    /\ filter is_teardown tr = tr
    /\ UnifiedLiveClient.geminiClient u' = UnifiedLiveClient.geminiClient u.
Proof.
  intros Hp Ho.
  destruct u as [gc oc prov ust].
  cbn [UnifiedLiveClient._currentProvider UnifiedLiveClient.openaiClient] in Hp, Ho.
  subst prov oc.
  destruct o as [[w|] [p|] [d|] [a|] key mode st cfg];
    do 3 eexists; repeat split.
Qed.

(** X15.  [connect] on the unified session object raises when the adapter of the
    current provider was not created: nothing is requested, and the status
    is [disconnected] afterwards. *)
Theorem unified_connect_without_adapter
  (env_g : adapter_env) (env : ConnectEnv) (model : string) (config : Config)
  (u : UnifiedLiveClient.t G) :
  UnifiedLiveClient._status u = disconnected ->
  match UnifiedLiveClient._currentProvider u with
  | gemini => UnifiedLiveClient.geminiClient u = None
  | openai => UnifiedLiveClient.openaiClient u = None
  end ->
  UnifiedLiveClient.connect env_g env model config u = (None, u, []).
Proof.
  destruct u as [gc oc [|] ust];
    cbn [UnifiedLiveClient._status UnifiedLiveClient._currentProvider
         UnifiedLiveClient.geminiClient UnifiedLiveClient.openaiClient];
    intros -> ->; reflexivity.
Qed.

(** X16.  Switching from the OpenAI provider to Gemini tears the OpenAI adapter
    down: one release call for each handle it holds, after which it holds
    none and is [disconnected].  The Gemini adapter is left as it was,
    Gemini becomes the current provider, and the switch ends with exactly
    one [providerChanged] notification.  When the OpenAI adapter exists the
    status of the session object is [disconnected] afterwards; when it was
    never created nothing is released and the status is unchanged. *)
Theorem switchProvider_from_openai (u : UnifiedLiveClient.t G) :
  UnifiedLiveClient._currentProvider u = openai ->
  exists u',
    UnifiedLiveClient.switchProvider gemini u
      = (Some tt, u',
         match UnifiedLiveClient.openaiClient u with
         | Some o => held_closes o
         | None => []
         end ++ [Emit (EvProviderChanged gemini)])
    /\ UnifiedLiveClient._currentProvider u' = gemini
    /\ UnifiedLiveClient.geminiClient u' = UnifiedLiveClient.geminiClient u
    /\ match UnifiedLiveClient.openaiClient u with
       | Some o =>
           UnifiedLiveClient.openaiClient u'
           = Some (mk None None None None (apiKey o) (connectionType o)
                      disconnected (initialConfig o))
           /\ UnifiedLiveClient._status u' = disconnected
       | None =>
           UnifiedLiveClient.openaiClient u' = None
           /\ UnifiedLiveClient._status u' = UnifiedLiveClient._status u
       end.
Proof.
  destruct u as [gc oc prov ust]. cbn [UnifiedLiveClient._currentProvider].
  intros ->.
  destruct oc as [[[w|] [p|] [d|] [a|] key mode st cfg]|];
    eexists; (split; [reflexivity|]); repeat split.
Qed.

End After_handshake.

(* ================================================================== *)
(** * Attempts in flight                                               *)
(* ================================================================== *)

Section Attempts_in_flight.

Import OpenAIRealtimeClient Samples.
Local Open Scope nat_scope.

(** Every attempt of [connect] opens as [connect_until_first_await] says:
    from [disconnected] the prefix starts an attempt, writes [connecting]
    and issues one opening request, and the trace of the whole attempt
    begins with that request whatever the environment answers. *)
Lemma connect_opens_with_first_await
  (env : ConnectEnv) (model : string) (config : Config)
  (c : OpenAIRealtimeClient.t) :
  _status c = disconnected ->
  exists c0 request r c' rest,
    connect_until_first_await model config c = (Some true, c0, [request])
    /\ _status c0 = connecting
    /\ attempts_opened [request] = [request]
    /\ connect env model config c = (r, c', request :: rest).
Proof.
  intro Hst. destruct (connectionType c) eqn:Hmode.
  - destruct (connect_webrtc_run env model config c Hmode Hst)
      as (c' & tr & E & _ & _ & _ & _ & rest & ->).
    destruct c as [w p d a key mode st cfg].
    cbn [connectionType _status apiKey] in *. subst mode st.
    do 5 eexists. split; [reflexivity|]. split; [reflexivity|].
    split; [reflexivity|]. exact E.
  - destruct c as [w p d a key mode st cfg].
    cbn [connectionType _status] in *. subst mode st.
    destruct env as [e [ | | ]];
      do 5 eexists; (split; [reflexivity|]); (split; [reflexivity|]);
      (split; [reflexivity|]); reflexivity.
Qed.


End Attempts_in_flight.

Lemma unified_connect_over_webrtc_witness :
  exists u' o' tr,
    @UnifiedLiveClient.connect GeminiClient.t GeminiClient_adapter
      (GeminiClient.LiveRejected "unused") (Samples.env_of Samples.rtc_call_rejected)
      "gpt-realtime" Samples.sample_config
      (UnifiedLiveClient.mk (Some Samples.gemini_connecting)
         (Some (OpenAIRealtimeClient.new "sk-test" webrtc)) openai disconnected)
    = (Some false, u', tr)
    /\ UnifiedLiveClient.openaiClient u' = Some o'
    /\ OpenAIRealtimeClient._status o' = disconnected
    /\ UnifiedLiveClient._status u' = connecting.
Proof.
  destruct (@unified_connect_over_webrtc GeminiClient.t GeminiClient_adapter
              (GeminiClient.LiveRejected "unused")
              (Samples.env_of Samples.rtc_call_rejected)
              "gpt-realtime" Samples.sample_config
              (UnifiedLiveClient.mk (Some Samples.gemini_connecting)
                 (Some (OpenAIRealtimeClient.new "sk-test" webrtc)) openai
                 disconnected)
              (OpenAIRealtimeClient.new "sk-test" webrtc)
              eq_refl eq_refl eq_refl eq_refl eq_refl)
    as (u' & o' & tr & E & Ho & Hso & Hsu & _).
  exists u', o', tr. repeat split; assumption.
Defined.

Lemma unified_disconnect_over_openai_witness :
  exists u' o' tr,
    UnifiedLiveClient.disconnect Samples.unified_on_openai = (Some true, u', tr)
    /\ UnifiedLiveClient._status u' = disconnected
    /\ UnifiedLiveClient.openaiClient u' = Some o'
    /\ OpenAIRealtimeClient._status o' = disconnected.
Proof.
  destruct (unified_disconnect_over_openai Samples.unified_on_openai
              Samples.rtc_client eq_refl eq_refl)
    as (u' & o' & tr & E & Hs & Ho & Hso & _).
  exists u', o', tr. repeat split; assumption.
Defined.

Lemma unified_connect_without_adapter_witness :
  @UnifiedLiveClient.connect GeminiClient.t GeminiClient_adapter
    (GeminiClient.LiveRejected "unused") Samples.socket_opens
    "gpt-realtime" Samples.sample_config
    (UnifiedLiveClient.mk (Some Samples.gemini_connecting) None openai disconnected)
  = (None,
     UnifiedLiveClient.mk (Some Samples.gemini_connecting) None openai disconnected,
     []).
Proof.
  apply (@unified_connect_without_adapter GeminiClient.t GeminiClient_adapter);
    reflexivity.
Defined.

Lemma switchProvider_from_openai_witness :
  exists u',
    UnifiedLiveClient.switchProvider gemini Samples.unified_on_openai
      = (Some tt, u',
         [PcClose; DcClose; AudioPause; Emit (EvProviderChanged gemini)])
    /\ UnifiedLiveClient._currentProvider u' = gemini.
Proof.
  destruct (switchProvider_from_openai Samples.unified_on_openai eq_refl)
    as (u' & E & Hp & _).
  exists u'. split; [exact E | exact Hp].
Defined.

(* ================================================================== *)
(** * The hook's [connect]                                             *)
(* ================================================================== *)

Section Hook_connect.

Import OpenAIRealtimeClient Samples.
Local Open Scope nat_scope.

Context {G : Type} `{LiveAdapter G}.

Lemma unified_disconnect_openai_run
  (gc : option G) (o : OpenAIRealtimeClient.t) (ust : Status) :
  exists tr,
    UnifiedLiveClient.disconnect (UnifiedLiveClient.mk gc (Some o) openai ust)
    = (Some true,
       UnifiedLiveClient.mk gc
         (Some (mk None None None None (apiKey o) (connectionType o)
                   disconnected (initialConfig o)))
         openai disconnected,
       tr)
    /\ filter is_teardown tr = tr.
Proof.
  destruct o as [[w|] [p|] [d|] [a|] key mode st cfg]; eexists; split; reflexivity.
Qed.

(** X17.  The hook's [connect] disconnects first and then connects.  With the
    OpenAI adapter active this always starts a new attempt, whatever the
    status was, also while an earlier attempt is still [connecting]: after
    the teardown of what was held, the first thing done is the request that
    opens the attempt (the credential request in media-track mode, the
    socket in message-stream mode). *)
Theorem hook_connect_always_attempts
  (env_g : adapter_env) (env : ConnectEnv) (model : string) (config : Config)
  (u : UnifiedLiveClient.t G) (o : OpenAIRealtimeClient.t) :
  UnifiedLiveClient._currentProvider u = openai ->
  UnifiedLiveClient.openaiClient u = Some o ->
  exists u' teardown first rest,
    LiveAPIHook.connect env_g env model config u
      = (Some tt, u', teardown ++ first :: rest)
    /\ filter is_teardown teardown = teardown
    /\ is_network first = true
    /\ first = match connectionType o with
               | webrtc =>
                   FetchClientSecrets (apiKey o) (client_secrets_body model config)
               | websocket => NewWebSocket (socket_url model)
               end.
Proof.
  intros Hp Ho. destruct u as [gc oc prov ust].
  cbn [UnifiedLiveClient._currentProvider UnifiedLiveClient.openaiClient] in Hp, Ho.
  subst prov oc.
  destruct (unified_disconnect_openai_run gc o ust) as (t1 & E1 & Ht1).
  unfold LiveAPIHook.connect.
  destruct (connectionType o) eqn:Hmode.
  - destruct (connect_webrtc_run env model config
                (mk None None None None (apiKey o) webrtc disconnected
                    (initialConfig o)) eq_refl eq_refl)
      as (o' & tr & E & _ & _ & Hfw & _ & (rest & Htr)).
    cbn [apiKey] in Htr. subst tr.
    do 4 eexists. split.
    { eapply bind_run; [exact E1|].
      unfold UnifiedLiveClient.connect, bind, get, modify, try_catch,
        UnifiedLiveClient.on_adapter, ret.
      cbn [UnifiedLiveClient._status UnifiedLiveClient._currentProvider
           UnifiedLiveClient.openaiClient UnifiedLiveClient.set_status
           UnifiedLiveClient.set_openaiClient UnifiedLiveClient.geminiClient].
      rewrite E. cbn [app]. rewrite app_nil_r. reflexivity. }
    split; [exact Ht1 | split; reflexivity].
  - destruct env as [r [ | | ]]; do 4 eexists.
    all: split; [eapply bind_run; [exact E1 | reflexivity] |].
    all: split; [exact Ht1 | split; reflexivity].
Qed.

End Hook_connect.

Lemma hook_connect_always_attempts_witness :
  exists u' teardown first rest,
    @LiveAPIHook.connect GeminiClient.t GeminiClient_adapter
      (GeminiClient.LiveRejected "unused") (Samples.env_of Samples.rtc_all_ok)
      "gpt-realtime" Samples.sample_config
      (UnifiedLiveClient.mk (Some Samples.gemini_connecting)
         (Some (OpenAIRealtimeClient.mk None (Some OpenAIRealtimeClient.handle)
                  None (Some OpenAIRealtimeClient.handle) "sk-test" webrtc
                  connecting (Some Samples.sample_config)))
         openai connecting)
    = (Some tt, u', teardown ++ first :: rest)
    /\ filter is_teardown teardown = teardown
    /\ is_network first = true.
Proof.
  destruct (@hook_connect_always_attempts GeminiClient.t GeminiClient_adapter
              (GeminiClient.LiveRejected "unused")
              (Samples.env_of Samples.rtc_all_ok)
              "gpt-realtime" Samples.sample_config
              (UnifiedLiveClient.mk (Some Samples.gemini_connecting)
                 (Some (OpenAIRealtimeClient.mk None
                          (Some OpenAIRealtimeClient.handle) None
                          (Some OpenAIRealtimeClient.handle) "sk-test" webrtc
                          connecting (Some Samples.sample_config)))
                 openai connecting)
              _ eq_refl eq_refl)
    as (u' & teardown & first & rest & E & Ht & Hn & _).
  exists u', teardown, first, rest. repeat split; assumption.
Defined.

(* ================================================================== *)
(** * Further properties of the playback queue                         *)
(* ================================================================== *)

Section Playback_more.

Import AppAudio Samples.
Local Open Scope nat_scope.

Lemma step_conserves (o : Occurrence) (s : AudioStreamer.t) :
  Forall (fun b => b <> []) (AudioStreamer.audioQueue s ++ enqueued [o]) ->
  exists s1 t1,
    step o (Some s) = (Some tt, Some s1, t1)
    /\ started t1 ++ AudioStreamer.audioQueue s1
       = AudioStreamer.audioQueue s ++ enqueued [o].
Proof.
  destruct s as [q playing rate]. cbn [AudioStreamer.audioQueue].
  intro Hne.
  assert (Hhead : forall x rest, q ++ enqueued [o] = x :: rest ->
                                 AudioStreamer.createBuffer_ok x = true).
  { intros x rest E. rewrite E in Hne. apply Forall_inv in Hne.
    destruct x; [contradiction | reflexivity]. }
  destruct o as [e|].
  - destruct e;
      try (do 2 eexists; split; [reflexivity|]; cbn; now rewrite ?app_nil_r).
    destruct playing.
    + do 2 eexists. split; [reflexivity|]. reflexivity.
    + cbn [enqueued] in Hhead.
      destruct q as [|x q].
      * pose proof (Hhead _ _ eq_refl) as Hok.
        cbn [step deliver onAudio enqueued].
        destruct (AudioStreamer.pcm16ToFloat32 data) as [|v vs] eqn:Hc;
          [discriminate Hok|].
        do 2 eexists. split.
        -- cbv -[AudioStreamer.pcm16ToFloat32 List.length]. rewrite Hc.
           reflexivity.
        -- reflexivity.
      * pose proof (Hhead _ _ eq_refl) as Hok.
        destruct x as [|v vs]; [discriminate Hok|].
        do 2 eexists. split; reflexivity.
  - cbn [enqueued] in Hhead. rewrite app_nil_r in Hhead.
    destruct q as [|x q].
    + do 2 eexists. split; [reflexivity|]. reflexivity.
    + pose proof (Hhead _ _ eq_refl) as Hok.
      destruct x as [|v vs]; [discriminate Hok|].
      do 2 eexists. split; [reflexivity|].
      cbn. now rewrite app_nil_r.
Qed.

(** X18.  In the application, as long as every audio chunk holds at least one
    sample, the playback queue neither drops, duplicates nor reorders: over
    any timeline of client events and source endings, the buffers started
    so far followed by the buffers still queued are exactly the buffers
    queued at the beginning followed by the buffers that arrived, in
    arrival order. *)
Theorem playback_is_fifo (os : list Occurrence) :
  forall s : AudioStreamer.t,
  Forall (fun b => b <> []) (AudioStreamer.audioQueue s ++ enqueued os) ->
  exists s' tr,
    run os (Some s) = (Some tt, Some s', tr)
    /\ started tr ++ AudioStreamer.audioQueue s'
       = AudioStreamer.audioQueue s ++ enqueued os.
Proof.
  induction os as [|o os IH]; intros s Hne.
  - exists s, []. split; [reflexivity|]. cbn. now rewrite app_nil_r.
  - rewrite enqueued_cons, app_assoc in Hne.
    pose proof (proj1 (proj1 (Forall_app _ _ _) Hne)) as Ho.
    destruct (step_conserves o s Ho) as (s1 & t1 & E1 & H1).
    assert (Hne1 : Forall (fun b => b <> [])
                          (AudioStreamer.audioQueue s1 ++ enqueued os)).
    { rewrite <- H1 in Hne. apply Forall_app in Hne. destruct Hne as [Hl Hr].
      apply Forall_app in Hl. apply Forall_app. split; [apply Hl | exact Hr]. }
    destruct (IH s1 Hne1) as (s2 & t2 & E2 & H2).
    exists s2, (t1 ++ t2). split.
    + cbn [run]. unfold bind. rewrite E1, E2. reflexivity.
    + rewrite started_app, enqueued_cons, <- app_assoc, H2.
      rewrite !app_assoc. now rewrite H1.
Qed.

Lemma playback_is_fifo_witness :
  exists s' tr,
    run [Delivered (EvAudio pcm_a); Delivered (EvAudio pcm_b); SourceEnded;
         Delivered EvInterrupted; Delivered (EvAudio pcm_c)]
        (Some AudioStreamer.new)
      = (Some tt, Some s', tr)
    /\ started tr ++ AudioStreamer.audioQueue s'
       = map AudioStreamer.pcm16ToFloat32 [pcm_a; pcm_b; pcm_c].
Proof.
  apply (playback_is_fifo
           [Delivered (EvAudio pcm_a); Delivered (EvAudio pcm_b); SourceEnded;
            Delivered EvInterrupted; Delivered (EvAudio pcm_c)]
           AudioStreamer.new).
  repeat constructor; discriminate.
Defined.

(** A chunk shorter than one sample stalls the queue: its buffer is taken
    out of the queue, [createBuffer] raises on it, [isPlaying] stays set
    and, no source having been started, nothing ends to restart the queue;
    the buffers that arrive afterwards wait for ever. *)
Example short_chunk_stalls_playback :
  run [Delivered (EvAudio [x01]); Delivered (EvAudio pcm_a);
       Delivered (EvAudio pcm_b)] (Some AudioStreamer.new)
  = (Some tt,
     Some (AudioStreamer.mk
             [AudioStreamer.pcm16ToFloat32 pcm_a; AudioStreamer.pcm16ToFloat32 pcm_b]
             true 24000),
     [AddLog (AppReceivedAudio 1); AddLog (AppReceivedAudio 4);
      AddLog (AppReceivedAudio 4)]).
Proof. reflexivity. Qed.

Lemma no_interruption_cons (o : Occurrence) (os : list Occurrence) :
  no_interruption (o :: os) = true ->
  no_interruption [o] = true /\ no_interruption os = true.
Proof. destruct o as [[]|]; cbn; intro Hn; try discriminate; split; auto. Qed.

Lemma sounding_delivered (e : Event) (os : list Occurrence)
  (r r' : AppAudio.t) (x : option unit) (tr : Trace) (active : nat) :
  step (Delivered e) r = (x, r', tr) ->
  sounding (Delivered e :: os) r active
  = sounding os r' (active + List.length (started tr)).
Proof.
  intro E. cbn [sounding]. rewrite E.
  destruct active; f_equal; lia.
Qed.

Lemma sounding_ended (os : list Occurrence)
  (r r' : AppAudio.t) (x : option unit) (tr : Trace) (active : nat) :
  step SourceEnded r = (x, r', tr) ->
  sounding (SourceEnded :: os) r (S active)
  = sounding os r' (active + List.length (started tr)).
Proof.
  intro E. cbn [sounding]. rewrite E. f_equal. lia.
Qed.

(** An [audio] event on an idle streamer with nothing queued: the buffer
    starts at once, unless it is empty. *)
Lemma audio_on_idle (data : list byte) (rate : Z) :
  exists tr,
    step (Delivered (EvAudio data)) (Some (AudioStreamer.mk [] false rate))
    = (Some tt, Some (AudioStreamer.mk [] true rate), tr)
    /\ List.length (started tr) <= 1.
Proof.
  destruct (AudioStreamer.pcm16ToFloat32 data) as [|v vs] eqn:Hc; eexists; split.
  - cbv -[AudioStreamer.pcm16ToFloat32 List.length]. rewrite Hc. reflexivity.
  - cbn. lia.
  - cbv -[AudioStreamer.pcm16ToFloat32 List.length]. rewrite Hc. reflexivity.
  - cbn. lia.
Qed.

Lemma sounding_in_step (os : list Occurrence) :
  forall (s : AudioStreamer.t) (active m : nat),
  in_step s active ->
  sounding os (Some s) active = Some m ->
  m <= 1.
Proof.
  induction os as [|o os IH]; intros s active m [Hle Hidle] Hs.
  - cbn in Hs. injection Hs as <-. exact Hle.
  - destruct s as [q playing rate].
    cbn [AudioStreamer.isPlaying AudioStreamer.audioQueue] in Hidle.
    destruct o as [e|].
    + assert (Hquiet : (forall data, e <> EvAudio data) -> m <= 1).
      { intro Hna.
        rewrite (sounding_delivered e os _ (Some (AudioStreamer.mk q playing rate))
                   (Some tt) []) in Hs
          by (destruct e; try reflexivity; exfalso; eapply Hna; reflexivity).
        cbn [started List.length] in Hs. rewrite Nat.add_0_r in Hs.
        apply (IH _ _ _) in Hs; [exact Hs|]. split; assumption. }
      destruct e as [ | | data | | | | | | | ]; try (apply Hquiet; discriminate).
      clear Hquiet. destruct playing.
      * rewrite (sounding_delivered _ os _
                   (Some (AudioStreamer.mk
                            (q ++ [AudioStreamer.pcm16ToFloat32 data]) true rate))
                   (Some tt) [AddLog (AppReceivedAudio (List.length data))]) in Hs
          by reflexivity.
        cbn [started List.length] in Hs. rewrite Nat.add_0_r in Hs.
        apply (IH _ _ _) in Hs; [exact Hs|].
        split; [exact Hle | discriminate].
      * destruct (Hidle eq_refl) as [-> ->].
        destruct (audio_on_idle data rate) as (tr & E & Hlen).
        rewrite (sounding_delivered _ os _ _ _ _ _ E) in Hs.
        apply (IH _ _ _) in Hs; [exact Hs|].
        split; [cbn; lia | discriminate].
    + destruct active as [|n]; [cbn in Hs; discriminate|].
      assert (n = 0) by lia. subst n.
      destruct playing; [|destruct (Hidle eq_refl); discriminate].
      destruct q as [|[|v vs] q].
      * rewrite (sounding_ended os _ (Some (AudioStreamer.mk [] false rate))
                   (Some tt) []) in Hs by reflexivity.
        apply (IH _ _ _) in Hs; [exact Hs|].
        split; [cbn; lia | intros _; split; reflexivity].
      * rewrite (sounding_ended os _ (Some (AudioStreamer.mk q true rate))
                   (Some tt) []) in Hs by reflexivity.
        apply (IH _ _ _) in Hs; [exact Hs|].
        split; [cbn; lia | discriminate].
      * rewrite (sounding_ended os _ (Some (AudioStreamer.mk q true rate))
                   (Some tt) [SourceStart (v :: vs) rate]) in Hs by reflexivity.
        apply (IH _ _ _) in Hs; [exact Hs|].
        split; [cbn; lia | discriminate].
Qed.

(** X19.  Without an interruption buffers never overlap: starting from a fresh
    streamer, over any timeline in which a source ends only while one is
    sounding, at most one buffer source is sounding at any time. *)
Theorem playback_never_overlaps (os : list Occurrence) (m : nat) :
  no_interruption os = true ->
  sounding os (Some AudioStreamer.new) 0 = Some m ->
  m <= 1.
Proof.
  intros _ Hs. apply (sounding_in_step os AudioStreamer.new 0 m); [|exact Hs].
  split; [lia | intros _; split; reflexivity].
Qed.

Lemma playback_never_overlaps_witness :
  sounding [Delivered (EvAudio pcm_a); Delivered (EvAudio pcm_b); SourceEnded;
            Delivered (EvAudio pcm_c)] (Some AudioStreamer.new) 0 = Some 1
  /\ 1 <= 1.
Proof.
  split; [reflexivity|].
  apply (playback_never_overlaps
           [Delivered (EvAudio pcm_a); Delivered (EvAudio pcm_b); SourceEnded;
            Delivered (EvAudio pcm_c)] 1); reflexivity.
Defined.

(** After [stop()] they can: it clears [isPlaying] while the current source
    is still sounding, so the next buffer starts on top of it. *)
Example overlap_after_stop :
  exists s1 s2 s3,
    AudioStreamer.addPCM16 pcm_a AudioStreamer.new
      = (Some tt, s1, [SourceStart (AudioStreamer.pcm16ToFloat32 pcm_a) 24000])
    /\ AudioStreamer.stop s1 = (Some tt, s2, [])
    /\ AudioStreamer.addPCM16 pcm_b s2
       = (Some tt, s3, [SourceStart (AudioStreamer.pcm16ToFloat32 pcm_b) 24000]).
Proof. do 3 eexists. repeat split. Qed.

Lemma getInt16_range (lo hi : byte) :
  (-32768 <= AudioStreamer.getInt16 lo hi < 32768)%Z.
Proof.
  unfold AudioStreamer.getInt16.
  pose proof (Byte.to_N_bounded lo). pose proof (Byte.to_N_bounded hi).
  cbv zeta.
  destruct (Z.ltb_spec (Z.of_N (Byte.to_N lo) + 256 * Z.of_N (Byte.to_N hi)) 32768);
    lia.
Qed.

(** X20.  [addPCM16] turns [n] bytes into [floor(n / 2)] samples (an odd last byte
    is ignored), and every sample lies in [-1, 1). *)
Theorem pcm16ToFloat32_samples (pcm16Data : list byte) :
  List.length (AudioStreamer.pcm16ToFloat32 pcm16Data)
  = List.length pcm16Data / 2
  /\ Forall (fun x => (-1 <= x)%Q /\ (x < 1)%Q)
            (AudioStreamer.pcm16ToFloat32 pcm16Data).
Proof.
  assert (Hall : forall l : list byte,
            (List.length (AudioStreamer.pcm16ToFloat32 l) = List.length l / 2
             /\ Forall (fun x => (-1 <= x)%Q /\ (x < 1)%Q)
                       (AudioStreamer.pcm16ToFloat32 l))
            /\ forall b,
               (List.length (AudioStreamer.pcm16ToFloat32 (b :: l))
                = List.length (b :: l) / 2
                /\ Forall (fun x => (-1 <= x)%Q /\ (x < 1)%Q)
                          (AudioStreamer.pcm16ToFloat32 (b :: l)))).
  { induction l as [|x l [[IHl IHf] IHb]].
    - split; [split; [reflexivity | constructor]|].
      intro b. split; [reflexivity | constructor].
    - split; [exact (IHb x)|]. intro b.
      cbn [AudioStreamer.pcm16ToFloat32 List.length]. split.
      + rewrite IHl.
        replace (S (S (List.length l))) with (List.length l + 1 * 2) by lia.
        rewrite Nat.div_add by discriminate. lia.
      + constructor; [|exact IHf].
        pose proof (getInt16_range b x) as Hr.
        unfold Qle, Qlt. cbn [Qnum Qden]. lia. }
  apply Hall.
Qed.

End Playback_more.

(* ================================================================== *)
(** * Whole recording sessions                                         *)
(* ================================================================== *)

Section Recording_more.

Import App Samples.
Local Open Scope nat_scope.

Lemma record_gemini_run (cs : list Capture) (a : App.t)
  (g : GeminiClient.t) (s : GeminiClient.Session) :
  selectedModel a = gemini ->
  geminiClientRef a = Some g ->
  GeminiClient.session g = Some s ->
  audioChunkBufferRef a = [] ->
  exists tr,
    record cs a = (Some tt, a, tr)
    /\ session_calls tr = map frame_blob (frames cs).
Proof.
  intros Hmodel Hg Hs Hbuf.
  induction cs as [|c cs (tr & E & Hcalls)].
  - exists []. split; reflexivity.
  - destruct c as [audioData|]; cbn [record frames map].
    + destruct (sendRealtimeInput_run g s [MediaBlob audioData pcm_mime] Hs)
        as (t1 & E1 & C1).
      eexists. split.
      * eapply bind_run; [|exact E].
        unfold on_audio_data. eapply bind_run; [reflexivity|].
        rewrite Hmodel. exact (on_gemini_run _ a g tt t1 Hg E1).
      * cbn [app]. rewrite session_calls_app, C1, Hcalls. reflexivity.
    + eexists. split.
      * eapply bind_run; [|exact E].
        unfold interval_tick. eapply bind_run; [reflexivity|].
        rewrite Hbuf. reflexivity.
      * cbn [app]. exact Hcalls.
Qed.

(** X21.  Over a whole recording on the Gemini path with a live session, the
    session receives exactly the captured frames, one blob per frame in
    capture order, whatever the batching timer does in between, and
    nothing else: in particular no [turnComplete].  Afterwards the timer is
    cleared and recording is off. *)
Theorem gemini_recording_session
  (timer : nat) (cs : list Capture) (a : App.t)
  (g : GeminiClient.t) (s : GeminiClient.Session) :
  isConnected a = true ->
  selectedModel a = gemini ->
  geminiClientRef a = Some g ->
  GeminiClient.session g = Some s ->
  exists a' tr,
    recording_session timer cs a = (Some tt, a', tr)
    /\ session_calls tr = map frame_blob (frames cs)
    /\ sendIntervalRef a' = None
    /\ isRecording a' = false
    /\ audioChunkBufferRef a' = [].
Proof.
  intros Hc Hmodel Hg Hs.
  destruct a as [model ic ir gref oref rs buf iv].
  cbn [isConnected selectedModel geminiClientRef] in Hc, Hmodel, Hg.
  subst ic model gref.
  destruct (record_gemini_run cs
              (App.mk gemini true true (Some g) oref true [] (Some timer)) g s
              eq_refl eq_refl Hs eq_refl) as (t2 & E2 & C2).
  do 2 eexists. split.
  - unfold recording_session.
    eapply bind_run; [reflexivity|].
    eapply bind_run; [exact E2|]. reflexivity.
  - rewrite !session_calls_app, C2. cbn. rewrite app_nil_r. repeat split.
Qed.

Lemma gemini_recording_session_witness :
  exists a' tr,
    recording_session 7 [Frame pcm_a; Tick; Frame pcm_b] app_on_gemini
      = (Some tt, a', tr)
    /\ session_calls tr = [frame_blob pcm_a; frame_blob pcm_b]
    /\ sendIntervalRef a' = None.
Proof.
  destruct (gemini_recording_session 7 [Frame pcm_a; Tick; Frame pcm_b]
              app_on_gemini gemini_connected quiet_session
              eq_refl eq_refl eq_refl eq_refl)
    as (a' & tr & E & Hcalls & Hi & _).
  exists a', tr. repeat split; assumption.
Defined.

(** X22.  On the OpenAI path, where the application always makes the adapter in
    media-track mode, a recording puts nothing on any channel: every captured
    frame is handed to [sendAudio] and dropped there, the adapter is left
    as it was, and no batching timer is left behind. *)
Theorem openai_recording_sends_nothing
  (timer : nat) (cs : list Capture) (a : App.t) (o : OpenAIRealtimeClient.t) :
  isConnected a = true ->
  selectedModel a = openai ->
  openaiClientRef a = Some o ->
  OpenAIRealtimeClient.connectionType o = webrtc ->
  exists a' tr,
    recording_session timer cs a = (Some tt, a', tr)
    /\ filter is_network tr = []
    /\ openaiClientRef a' = Some o
    /\ sendIntervalRef a' = None.
Proof.
  intros Hc Hmodel Ho Hmode.
  destruct a as [model ic ir gref oref rs buf iv].
  cbn [isConnected selectedModel openaiClientRef sendIntervalRef] in *.
  subst ic model oref.
  assert (Hrec : forall cs0,
             record cs0 (App.mk openai true true gref (Some o) true [] iv)
             = (Some tt, App.mk openai true true gref (Some o) true [] iv, [])).
  { induction cs0 as [|c cs0 IH]; [reflexivity|].
    destruct c as [audioData|]; cbn [record].
    - unfold bind at 1. unfold on_audio_data, bind at 1. cbn [get selectedModel].
      unfold on_openai, optional_call. cbn [openaiClientRef].
      unfold OpenAIRealtimeClient.sendAudio, bind at 1.
      cbn [get]. rewrite Hmode. unfold set_openaiClientRef.
      cbn [ret selectedModel isConnected isRecording geminiClientRef
           openaiClientRef recorderStream audioChunkBufferRef sendIntervalRef].
      rewrite IH. reflexivity.
    - unfold bind at 1. cbn [interval_tick]. unfold interval_tick, bind at 1.
      cbn [get audioChunkBufferRef List.length Nat.ltb Nat.leb ret].
      rewrite IH. reflexivity. }
  destruct iv as [id|]; do 2 eexists.
  all: split;
    [unfold recording_session;
     eapply bind_run; [reflexivity|];
     eapply bind_run; [apply Hrec | reflexivity]
    | repeat split].
Qed.

Lemma openai_recording_sends_nothing_witness :
  exists a' tr,
    recording_session 7 [Frame pcm_a; Frame pcm_b]
      (App.mk openai true false None (Some rtc_client) false [] None)
      = (Some tt, a', tr)
    /\ filter is_network tr = [].
Proof.
  destruct (openai_recording_sends_nothing 7 [Frame pcm_a; Frame pcm_b]
              (App.mk openai true false None (Some rtc_client) false [] None)
              rtc_client eq_refl eq_refl eq_refl eq_refl)
    as (a' & tr & E & Hn & _).
  exists a', tr. split; assumption.
Defined.

End Recording_more.
